(** * The client-side stores of the document chat frontend

    A shallow embedding of the two zustand stores of the frontend
    ([store/chatStore.js] and [store/fileStore.js]) and of the two component
    handlers that gate them ([ChatInput.handleSubmit] and
    [SessionList.handleSwitchSession]).

    An [async] store operation runs synchronously up to its [await], is
    suspended while the request is in flight, and is resumed with the reply.
    Every operation is therefore embedded as two functions on the store:
    [op_call], the segment before the [await], and [op_resume], the segment
    after it, which receives the reply and the store as it is at that moment.
    Other operations may run between the two segments; [run_op] is their
    composition with nothing in between. *)

From Stdlib Require Import NArith String Ascii.
From stdpp Require Import base decidable option list gmap sets.

(** ** JavaScript values *)

(** A JavaScript string is a sequence of UTF-16 code units. *)
Definition jsstring : Type := list N.

(** The string literal whose characters are those of [s]. *)
Definition lit (s : string) : jsstring :=
  N_of_ascii <$> list_ascii_of_string s.

(** The [Error] built by the response interceptor of [services/api]: only its
    message is observable. *)
Definition Error : Type := jsstring.

(** What awaiting a promise yields: its value, or the error it rejected
    with, which the [await] throws. *)
Inductive Result (A : Type) : Type :=
| Ok (value : A)
| Err (error : Error).
Arguments Ok {A} value.
Arguments Err {A} error.

(** [l.slice(0, -1)]: the end index is [max (length + (-1)) 0]. *)
Definition slice_0_m1 {A} (l : list A) : list A := take (length l - 1) l.
Arguments slice_0_m1 {A} l : simpl never.

(** [String.prototype.trim] removes leading and trailing WhiteSpace and
    LineTerminator code units (ECMA-262, 12.2 and 12.3). *)
Definition isWhiteSpace (c : N) : bool :=
  ((9 <=? c) && (c <=? 13) || (c =? 32) || (c =? 160) || (c =? 5760)
   || (8192 <=? c) && (c <=? 8202) || (c =? 8232) || (c =? 8233)
   || (c =? 8239) || (c =? 8287) || (c =? 12288) || (c =? 65279))%N.

Fixpoint trimStart (s : jsstring) : jsstring :=
  match s with
  | c :: s' => if isWhiteSpace c then trimStart s' else s
  | [] => []
  end.

Definition trimEnd (s : jsstring) : jsstring := reverse (trimStart (reverse s)).

Definition trim (s : jsstring) : jsstring := trimEnd (trimStart s).

(** ** The backend contract ([services/api]) *)

Inductive Role : Type := user | assistant.

(** A message as the store keeps it; [sources = None] is an absent or
    [undefined] key. *)
Record Message : Type := {
  role : Role;
  content : jsstring;
  sources : option (list jsstring)
}.

(** A message of a fetched session history; [msg_sources = None] is a missing
    or [null] field. *)
Record HistoryMessage : Type := {
  msg_role : Role;
  msg_content : jsstring;
  msg_sources : option (list jsstring)
}.

Record SessionHistory : Type := { history_messages : list HistoryMessage }.

Record SessionSummary : Type := {
  session_id : jsstring;
  message_count : N;
  created_at : jsstring;
  last_message : option jsstring
}.

(** The body of [POST /chat]; [req_session_id = None] is [null]. *)
Record ChatRequest : Type := {
  question : jsstring;
  document_ids : list jsstring;
  req_session_id : option jsstring
}.

Record ChatResponse : Type := {
  answer : jsstring;
  resp_sources : list jsstring;
  resp_session_id : jsstring
}.

#[global] Instance Role_eq_dec : EqDecision Role.
Proof. solve_decision. Defined.
#[global] Instance Message_eq_dec : EqDecision Message.
Proof. solve_decision. Defined.
#[global] Instance SessionSummary_eq_dec : EqDecision SessionSummary.
Proof. solve_decision. Defined.
#[global] Instance ChatRequest_eq_dec : EqDecision ChatRequest.
Proof. solve_decision. Defined.

(** The network calls of [chatAPI] and [fileAPI]. *)
Inductive Request : Type :=
| createSession
| getAllSessions
| getSessionHistory (sessionId : jsstring)
| deleteSessionRequest (sessionId : jsstring)
| sendMessageRequest (data : ChatRequest)
| getFiles.

#[global] Instance Request_eq_dec : EqDecision Request.
Proof. solve_decision. Defined.

(** How a segment of an [async] function ends: suspended at its [await],
    returned (the promise resolves), or thrown (the promise rejects). *)
Inductive Outcome : Type :=
| Suspended
| Resolved
| Rejected (error : Error).

(** A [console.error] line: its label and the error. *)
Definition LogLine : Type := (string * Error)%type.

(** What a segment did: the store it leaves, the requests it issued (in
    order), what it logged, and how it ended. *)
Record Step (S : Type) : Type := {
  store : S;
  requests : list Request;
  console : list LogLine;
  outcome : Outcome
}.
Arguments store {S} _.
Arguments requests {S} _.
Arguments console {S} _.
Arguments outcome {S} _.

(** A segment that touches nothing and returns. *)
Definition nothing {S} (s : S) : Step S :=
  {| store := s; requests := []; console := []; outcome := Resolved |}.

(** A call that is not awaited: the callee's first segment runs now, inside
    the caller, and the caller goes on; the callee's own outcome is dropped. *)
Definition fire_and_forget {S} (callee : S -> Step S) (caller : Step S) : Step S :=
  let c := callee (store caller) in
  {| store := store c;
     requests := requests caller ++ requests c;
     console := console caller ++ console c;
     outcome := outcome caller |}.

(** The second segment, run on the store the first one left. *)
Definition and_then {S} (first : Step S) (second : S -> Step S) : Step S :=
  let r := second (store first) in
  {| store := store r;
     requests := requests first ++ requests r;
     console := console first ++ console r;
     outcome := outcome r |}.

(** ** The chat store ([useChatStore], with the sessions list) *)

Module ChatStore.

Record State : Type := {
  sessionId : option jsstring;
  messages : list Message;
  isLoading : bool;
  sessions : list SessionSummary;
  sessionsLoading : bool
}.

#[global] Instance State_eq_dec : EqDecision State.
Proof. solve_decision. Defined.

(** The object [create] is given. *)
Definition initial : State :=
  {| sessionId := None; messages := []; isLoading := false;
     sessions := []; sessionsLoading := false |}.

(** [set({ key: v })] merges one key into the store. *)
Definition set_sessionId (v : option jsstring) (s : State) : State :=
  {| sessionId := v; messages := messages s; isLoading := isLoading s;
     sessions := sessions s; sessionsLoading := sessionsLoading s |}.
Definition set_messages (v : list Message) (s : State) : State :=
  {| sessionId := sessionId s; messages := v; isLoading := isLoading s;
     sessions := sessions s; sessionsLoading := sessionsLoading s |}.
Definition set_isLoading (v : bool) (s : State) : State :=
  {| sessionId := sessionId s; messages := messages s; isLoading := v;
     sessions := sessions s; sessionsLoading := sessionsLoading s |}.
Definition set_sessions (v : list SessionSummary) (s : State) : State :=
  {| sessionId := sessionId s; messages := messages s; isLoading := isLoading s;
     sessions := v; sessionsLoading := sessionsLoading s |}.
Definition set_sessionsLoading (v : bool) (s : State) : State :=
  {| sessionId := sessionId s; messages := messages s; isLoading := isLoading s;
     sessions := sessions s; sessionsLoading := v |}.

(** *** fetchSessions *)

Definition fetchSessions_call (s : State) : Step State :=
  {| store := set_sessionsLoading true s;
     requests := [getAllSessions];
     console := [];
     outcome := Suspended |}.

Definition fetchSessions_resume (reply : Result (list SessionSummary)) (s : State)
  : Step State :=
  match reply with
  | Ok sessions' =>
      nothing (set_sessionsLoading false (set_sessions sessions' s))
  | Err error =>
      {| store := set_sessionsLoading false s;
         requests := [];
         console := [("Failed to fetch sessions:"%string, error)];
         outcome := Resolved |}
  end.

(** *** initializeSession *)

Definition initializeSession_call (s : State) : Step State :=
  {| store := s; requests := [createSession]; console := [];
     outcome := Suspended |}.

Definition initializeSession_resume (reply : Result jsstring) (s : State)
  : Step State :=
  match reply with
  | Ok response_session_id =>
      fire_and_forget fetchSessions_call
        (nothing (set_sessionId (Some response_session_id) s))
  | Err error =>
      {| store := s;
         requests := [];
         console := [("Failed to initialize session:"%string, error)];
         outcome := Resolved |}
  end.

(** *** switchSession *)

(** The conversion of a fetched message: [sources: msg.sources || undefined]. *)
Definition convert (msg : HistoryMessage) : Message :=
  {| role := msg_role msg;
     content := msg_content msg;
     sources := match msg_sources msg with
                | Some l => Some l
                | None => None
                end |}.

Definition switchSession_call (sessionId : jsstring) (s : State) : Step State :=
  {| store := set_isLoading true s;
     requests := [getSessionHistory sessionId];
     console := [];
     outcome := Suspended |}.

Definition switchSession_resume (sessionId : jsstring)
    (reply : Result SessionHistory) (s : State) : Step State :=
  match reply with
  | Ok sessionHistory =>
      let messages' := convert <$> history_messages sessionHistory in
      fire_and_forget fetchSessions_call
        (nothing (set_isLoading false
                    (set_messages messages'
                       (set_sessionId (Some sessionId) s))))
  | Err error =>
      {| store := set_isLoading false
                    (set_messages [] (set_sessionId (Some sessionId) s));
         requests := [];
         console := [("Failed to switch session:"%string, error)];
         outcome := Resolved |}
  end.

(** *** deleteSession *)

Definition deleteSession_call (sessionId : jsstring) (s : State) : Step State :=
  {| store := s; requests := [deleteSessionRequest sessionId]; console := [];
     outcome := Suspended |}.

Definition deleteSession_resume (sessionId' : jsstring) (reply : Result unit)
    (s : State) : Step State :=
  match reply with
  | Ok _ =>
      let s1 :=
        set_sessions
          (filter (fun x => session_id x <> sessionId') (sessions s)) s in
      if decide (sessionId s1 = Some sessionId')
      then nothing (set_messages [] (set_sessionId None s1))
      else nothing s1
  | Err error =>
      {| store := s;
         requests := [];
         console := [("Failed to delete session:"%string, error)];
         outcome := Rejected error |}
  end.

(** *** sendMessage *)

Definition user_message (message : jsstring) : Message :=
  {| role := user; content := message; sources := None |}.

Definition assistant_message (response : ChatResponse) : Message :=
  {| role := assistant;
     content := answer response;
     sources := Some (resp_sources response) |}.

(** The first segment reads [sessionId] from the store, appends the user
    message and issues the request with the id it read. *)
Definition sendMessage_call (message : jsstring) (documentIds : list jsstring)
    (s : State) : Step State :=
  let sessionId0 := sessionId s in
  {| store := set_isLoading true
                (set_messages (messages s ++ [user_message message]) s);
     requests := [sendMessageRequest
                    {| question := message;
                       document_ids := documentIds;
                       req_session_id := sessionId0 |}];
     console := [];
     outcome := Suspended |}.

Definition sendMessage_resume (reply : Result ChatResponse) (s : State)
  : Step State :=
  match reply with
  | Ok response =>
      fire_and_forget fetchSessions_call
        (nothing (set_sessionId (Some (resp_session_id response))
                    (set_isLoading false
                       (set_messages
                          (messages s ++ [assistant_message response]) s))))
  | Err error =>
      {| store := set_isLoading false
                    (set_messages (slice_0_m1 (messages s)) s);
         requests := [];
         console := [];
         outcome := Rejected error |}
  end.

(** *** clearChat *)

Definition clearChat (s : State) : State := set_messages [] s.

(** *** Whole operations, with nothing running in between *)

Definition run_initializeSession (reply : Result jsstring) (s : State) :=
  and_then (initializeSession_call s) (initializeSession_resume reply).

Definition run_fetchSessions (reply : Result (list SessionSummary)) (s : State) :=
  and_then (fetchSessions_call s) (fetchSessions_resume reply).

Definition run_switchSession (sessionId : jsstring)
    (reply : Result SessionHistory) (s : State) :=
  and_then (switchSession_call sessionId s) (switchSession_resume sessionId reply).

Definition run_deleteSession (sessionId : jsstring) (reply : Result unit)
    (s : State) :=
  and_then (deleteSession_call sessionId s) (deleteSession_resume sessionId reply).

Definition run_sendMessage (message : jsstring) (documentIds : list jsstring)
    (reply : Result ChatResponse) (s : State) :=
  and_then (sendMessage_call message documentIds s) (sendMessage_resume reply).

(** *** The invariant of the active conversation *)

(** With no active session the message sequence is empty. *)
Definition no_session_no_messages (s : State) : Prop :=
  sessionId s = None -> messages s = [].

#[global] Instance no_session_no_messages_dec (s : State)
  : Decision (no_session_no_messages s).
Proof. unfold no_session_no_messages. apply _. Defined.

(** *** Sample stores and replies *)

(** A store with session [a] active and one exchange in its history. *)
Definition chatting : State :=
  {| sessionId := Some (lit "a");
     messages := [user_message (lit "hi");
                  {| role := assistant; content := lit "hello";
                     sources := Some [] |}];
     isLoading := false;
     sessions := [ {| session_id := lit "a"; message_count := 2;
                      created_at := lit "1700000000000";
                      last_message := Some (lit "hello") |};
                   {| session_id := lit "b"; message_count := 0;
                      created_at := lit "1700000000001";
                      last_message := None |} ];
     sessionsLoading := false |}.

(** The histories the backend holds for sessions [a] and [b]. *)
Definition history_a : SessionHistory :=
  {| history_messages :=
       [ {| msg_role := user; msg_content := lit "asked in a";
            msg_sources := None |};
         {| msg_role := assistant; msg_content := lit "answered in a";
            msg_sources := Some [lit "doc1:p2"] |} ] |}.

Definition history_b : SessionHistory :=
  {| history_messages :=
       [ {| msg_role := user; msg_content := lit "asked in b";
            msg_sources := None |} ] |}.

End ChatStore.

(** ** The chat store without the sessions list

    The revision of [store/chatStore.js] that has only [sessionId],
    [messages] and [isLoading], and the operations [initializeSession],
    [sendMessage] and [clearChat]. *)

Module SessionlessChatStore.

Record State : Type := {
  sessionId : option jsstring;
  messages : list Message;
  isLoading : bool
}.

#[global] Instance State_eq_dec : EqDecision State.
Proof. solve_decision. Defined.

Definition initial : State :=
  {| sessionId := None; messages := []; isLoading := false |}.

Definition initializeSession_call (s : State) : Step State :=
  {| store := s; requests := [createSession]; console := [];
     outcome := Suspended |}.

Definition initializeSession_resume (reply : Result jsstring) (s : State)
  : Step State :=
  match reply with
  | Ok response_session_id =>
      nothing {| sessionId := Some response_session_id;
                 messages := messages s; isLoading := isLoading s |}
  | Err error =>
      {| store := s;
         requests := [];
         console := [("Failed to initialize session:"%string, error)];
         outcome := Resolved |}
  end.

Definition sendMessage_call (message : jsstring) (documentIds : list jsstring)
    (s : State) : Step State :=
  let sessionId0 := sessionId s in
  {| store := {| sessionId := sessionId s;
                 messages := messages s ++ [ChatStore.user_message message];
                 isLoading := true |};
     requests := [sendMessageRequest
                    {| question := message;
                       document_ids := documentIds;
                       req_session_id := sessionId0 |}];
     console := [];
     outcome := Suspended |}.

Definition sendMessage_resume (reply : Result ChatResponse) (s : State)
  : Step State :=
  match reply with
  | Ok response =>
      nothing {| sessionId := Some (resp_session_id response);
                 messages := messages s ++ [ChatStore.assistant_message response];
                 isLoading := false |}
  | Err error =>
      {| store := {| sessionId := sessionId s;
                     messages := slice_0_m1 (messages s);
                     isLoading := false |};
         requests := [];
         console := [];
         outcome := Rejected error |}
  end.

Definition clearChat (s : State) : State :=
  {| sessionId := sessionId s; messages := []; isLoading := isLoading s |}.

Definition run_initializeSession (reply : Result jsstring) (s : State) :=
  and_then (initializeSession_call s) (initializeSession_resume reply).

Definition run_sendMessage (message : jsstring) (documentIds : list jsstring)
    (reply : Result ChatResponse) (s : State) :=
  and_then (sendMessage_call message documentIds s) (sendMessage_resume reply).

End SessionlessChatStore.

(** ** The file store ([useFileStore])

    [uploadFile] is embedded apart, in [Upload] below. *)

Module FileStore.

Record FileInfo : Type := {
  id : jsstring;
  filename : jsstring;
  upload_date : jsstring;
  file_size : N;
  chunk_count : N
}.

Record State : Type := {
  files : list FileInfo;
  selectedFiles : list jsstring;
  isLoading : bool;
  isUploading : bool
}.

Definition initial : State :=
  {| files := []; selectedFiles := []; isLoading := false;
     isUploading := false |}.

Definition set_files (v : list FileInfo) (s : State) : State :=
  {| files := v; selectedFiles := selectedFiles s; isLoading := isLoading s;
     isUploading := isUploading s |}.
Definition set_selectedFiles (v : list jsstring) (s : State) : State :=
  {| files := files s; selectedFiles := v; isLoading := isLoading s;
     isUploading := isUploading s |}.
Definition set_isLoading (v : bool) (s : State) : State :=
  {| files := files s; selectedFiles := selectedFiles s; isLoading := v;
     isUploading := isUploading s |}.

Definition loadFiles_call (s : State) : Step State :=
  {| store := set_isLoading true s;
     requests := [getFiles];
     console := [];
     outcome := Suspended |}.

Definition loadFiles_resume (reply : Result (list FileInfo)) (s : State)
  : Step State :=
  match reply with
  | Ok files' => nothing (set_isLoading false (set_files files' s))
  | Err error =>
      {| store := set_isLoading false s;
         requests := [];
         console := [("Failed to load files:"%string, error)];
         outcome := Resolved |}
  end.

Definition run_loadFiles (reply : Result (list FileInfo)) (s : State) :=
  and_then (loadFiles_call s) (loadFiles_resume reply).

(** [includes] and [!==] on strings compare by value. *)
Definition toggleFileSelection (fileId : jsstring) (s : State) : State :=
  let isSelected := bool_decide (fileId ∈ selectedFiles s) in
  let selectedFiles' :=
    if isSelected
    then filter (fun id => id <> fileId) (selectedFiles s)
    else selectedFiles s ++ [fileId] in
  set_selectedFiles selectedFiles' s.

Definition selectAllFiles (s : State) : State :=
  set_selectedFiles (id <$> files s) s.

Definition clearSelection (s : State) : State := set_selectedFiles [] s.

(** The selection after a sequence of toggles, first toggle first. *)
Definition toggle_all (fileIds : list jsstring) (s : State) : State :=
  foldl (fun s' fileId => toggleFileSelection fileId s') s fileIds.

(** The selection read as a set. *)
Definition selection (s : State) : gset jsstring :=
  list_to_set (selectedFiles s).

(** Flipping the membership of one id in a set, and of a sequence of ids in
    turn: the reading of a toggle on sets. *)
Definition flip (fileId : jsstring) (X : gset jsstring) : gset jsstring :=
  if decide (fileId ∈ X) then X ∖ {[fileId]} else X ∪ {[fileId]}.

Definition flip_all (fileIds : list jsstring) (X : gset jsstring)
  : gset jsstring :=
  foldl (fun X' fileId => flip fileId X') X fileIds.

End FileStore.

(** ** The component handlers that gate the stores *)

Inductive Toast : Type :=
| toast_error (text : string)
| toast_success (text : string).

(** What the first segment of a handler did: the value it leaves in the
    component's own state (the input box), the toasts it raised, and its
    step on the chat store. *)
Record Handled : Type := {
  input_after : jsstring;
  toasts : list Toast;
  step : Step ChatStore.State
}.

Module ChatInput.

(** [handleSubmit], up to its [await]. [input] is the component's state;
    [isLoading] and [selectedFiles] are what the store hooks gave the
    component when it rendered; [disabled] is its prop. *)
Definition handleSubmit (input : jsstring) (isLoading disabled : bool)
    (selectedFiles : list jsstring) (s : ChatStore.State) : Handled :=
  if bool_decide (trim input = []) || isLoading || disabled
  then {| input_after := input; toasts := []; step := nothing s |}
  else if bool_decide (length selectedFiles = 0)
  then {| input_after := input;
          toasts := [toast_error "Please select at least one document first"];
          step := nothing s |}
  else
    let message := trim input in
    {| input_after := [];
       toasts := [];
       step := ChatStore.sendMessage_call message selectedFiles s |}.

End ChatInput.

Module SessionList.

(** [handleSwitchSession], up to its [await]. [currentSessionId] is the
    store's [sessionId] as the hook gave it to the component. *)
Definition handleSwitchSession (sessionId : jsstring)
    (currentSessionId : option jsstring) (s : ChatStore.State)
  : Step ChatStore.State :=
  if decide (Some sessionId = currentSessionId)
  then nothing s
  else ChatStore.switchSession_call sessionId s.

End SessionList.

Module FileList.

(** [handleFileToggle]: the toggle, then [clearChat]. *)
Definition handleFileToggle (fileId : jsstring)
    (stores : FileStore.State * ChatStore.State)
  : FileStore.State * ChatStore.State :=
  (FileStore.toggleFileSelection fileId (fst stores),
   ChatStore.clearChat (snd stores)).

End FileList.

(** ** Strings without white space at their ends *)

Definition no_leading_space (s : jsstring) : bool :=
  match s with
  | c :: _ => negb (isWhiteSpace c)
  | [] => true
  end.

Definition no_trailing_space (s : jsstring) : bool :=
  no_leading_space (reverse s).

(** ** The response interceptor ([services/api]) *)

Module Api.

(** A JavaScript value, by what [||] and [new Error] make of it: a string;
    a value that is not a string and is falsy ([undefined], [null], [false],
    [0], [NaN]); or any other value (an array, an object, [true], a
    non-zero number), which is truthy, with the string [new Error] converts
    it to (the empty string for [[]]). *)
Inductive Value : Type :=
| js_string (text : jsstring)
| js_falsy
| js_other (shown : jsstring).

(** What the interceptor reads of a failed request:
    [error.response?.data?.detail], which is [undefined] when there is no
    response, and [error.message]. *)
Record AxiosError : Type := {
  detail : Value;
  message : Value
}.

Definition truthy (v : Value) : bool :=
  match v with
  | js_string (_ :: _) => true
  | js_string [] => false
  | js_falsy => false
  | js_other _ => true
  end.

(** [a || b] *)
Definition or_else (a b : Value) : Value := if truthy a then a else b.

(** The message [new Error(v)] gets from a truthy [v]. *)
Definition to_message (v : Value) : jsstring :=
  match v with
  | js_string text => text
  | js_falsy => []
  | js_other shown => shown
  end.

(** The message of the [Error] the interceptor rejects with. *)
Definition rejection (error : AxiosError) : Error :=
  to_message
    (or_else (or_else (detail error) (message error))
             (js_string (lit "An error occurred"))).

End Api.

(** ** uploadFile ([useFileStore]) *)

Module Upload.
Import FileStore.

(** The browser [File], as far as the code reads it. *)
Record File : Type := {
  name : jsstring;
  type : jsstring;
  size : N
}.

Definition set_isUploading (v : bool) (s : State) : State :=
  {| files := files s; selectedFiles := selectedFiles s;
     isLoading := isLoading s; isUploading := v |}.

(** A segment of [uploadFile]: the files it posted to [/upload-file] (a call
    [Request] does not list) and its step on the store. *)
Record Uploading : Type := {
  posted : list File;
  then_ : Step State
}.

(** Up to [await fileAPI.uploadFile(file)]. *)
Definition uploadFile_call (file : File) (s : State) : Uploading :=
  {| posted := [file];
     then_ := {| store := set_isUploading true s; requests := [];
                 console := []; outcome := Suspended |} |}.

(** The [finally] block, run on the way out with the outcome [o]. *)
Definition finally_ (o : Outcome) (r : Step State) : Step State :=
  {| store := set_isUploading false (store r);
     requests := requests r;
     console := console r;
     outcome := o |}.

(** From the reply of the upload up to [await get().loadFiles()], or out
    through [finally] when the upload failed. *)
Definition uploadFile_uploaded (reply : Result unit) (s : State) : Step State :=
  match reply with
  | Ok _ => loadFiles_call s
  | Err error => finally_ (Rejected error) (nothing s)
  end.

(** From the reply of the reload to the end: [loadFiles] finishes (it never
    rejects), then [finally]. *)
Definition uploadFile_loaded (reply : Result (list FileInfo)) (s : State)
  : Step State :=
  finally_ Resolved (loadFiles_resume reply s).

(** A whole [uploadFile], with nothing running in between; [reload] is the
    reply the reload gets if the upload succeeds. *)
Definition run_uploadFile (file : File) (reply : Result unit)
    (reload : Result (list FileInfo)) (s : State) : Step State :=
  let uploaded :=
    and_then (then_ (uploadFile_call file s)) (uploadFile_uploaded reply) in
  match outcome uploaded with
  | Suspended => and_then uploaded (uploadFile_loaded reload)
  | _ => uploaded
  end.

End Upload.

(** ** FileUpload.onDrop *)

Module FileUpload.
Import Upload.

(** What [onDrop] did: its toasts, the files it posted, its step on the file
    store. *)
Record Dropped : Type := {
  toasts : list Toast;
  posted : list File;
  step : Step FileStore.State
}.

(** [50 * 1024 * 1024] *)
Definition limit : N := 50 * 1024 * 1024.

(** [onDrop], up to its [await]. *)
Definition onDrop (acceptedFiles : list File) (s : FileStore.State) : Dropped :=
  match acceptedFiles with
  | [] => {| toasts := []; posted := []; step := nothing s |}
  | file :: _ =>
      if negb (bool_decide (type file = lit "application/pdf"))
      then {| toasts := [toast_error "Please upload a PDF file"];
              posted := []; step := nothing s |}
      else if (limit <? size file)%N
      then {| toasts := [toast_error "File size must be less than 50MB"];
              posted := []; step := nothing s |}
      else
        let u := uploadFile_call file s in
        {| toasts := []; posted := Upload.posted u; step := then_ u |}
  end.

(** The rest of [onDrop] once [uploadFile] has taken the step [r]: nothing
    while it is suspended, the success toast when it returned, the failure
    toast (and a normal return) when it threw. *)
Definition onDrop_after (r : Step FileStore.State) : Dropped :=
  match outcome r with
  | Suspended => {| toasts := []; posted := []; step := r |}
  | Resolved =>
      {| toasts := [toast_success "File uploaded successfully!"];
         posted := []; step := r |}
  | Rejected _ =>
      {| toasts := [toast_error "Failed to upload file"];
         posted := [];
         step := {| store := store r; requests := requests r;
                    console := console r; outcome := Resolved |} |}
  end.

End FileUpload.

(** ** The other handlers of the components *)

Module Handlers.
Import ChatStore.

(** What a handler of the chat store did: the toasts it raised and its step
    on the store. *)
Record Reaction : Type := {
  toasted : list Toast;
  did : Step State
}.

(** A [try { await op; toast.success(ok) } catch { toast.error(ko) }] around
    the last segment [r] of the operation: the handler itself returns. *)
Definition toast_outcome (ok ko : string) (r : Step State) : Reaction :=
  match outcome r with
  | Suspended => {| toasted := []; did := r |}
  | Resolved => {| toasted := [toast_success ok]; did := r |}
  | Rejected _ =>
      {| toasted := [toast_error ko];
         did := {| store := store r; requests := requests r;
                   console := console r; outcome := Resolved |} |}
  end.

(** [ChatInput.handleSubmit] after its [await]: [message] is the text it
    sent, [input] what the input box holds by now. *)
Definition handleSubmit_resume (message : jsstring)
    (reply : Result ChatResponse) (input : jsstring) (s : State) : Handled :=
  let r := sendMessage_resume reply s in
  match outcome r with
  | Rejected _ =>
      {| input_after := message;
         toasts := [toast_error "Failed to send message"];
         step := {| store := store r; requests := requests r;
                    console := console r; outcome := Resolved |} |}
  | _ => {| input_after := input; toasts := []; step := r |}
  end.

(** [SessionList.handleSwitchSession] after its [await]. *)
Definition handleSwitchSession_resume (sessionId : jsstring)
    (reply : Result SessionHistory) (s : State) : Reaction :=
  toast_outcome "Switched to chat session" "Failed to switch session"
    (switchSession_resume sessionId reply s).

(** [SessionList.handleNewSession] and [SessionInfo.handleNewChat], which
    are the same function: up to the [await], and after it. *)
Definition handleNewSession (s : State) : Reaction :=
  {| toasted := []; did := initializeSession_call s |}.

Definition handleNewSession_resume (reply : Result jsstring) (s : State)
  : Reaction :=
  toast_outcome "New chat session created" "Failed to create new session"
    (initializeSession_resume reply s).

(** [SessionList.handleDeleteSession]: [confirmed] is what [window.confirm]
    returned, [deletingSession] the component's state. Each segment gives
    the new [deletingSession] and its reaction. *)
Definition handleDeleteSession (confirmed : bool) (sessionId : jsstring)
    (deletingSession : option jsstring) (s : State)
  : option jsstring * Reaction :=
  if negb confirmed
  then (deletingSession, {| toasted := []; did := nothing s |})
  else (Some sessionId,
        {| toasted := []; did := deleteSession_call sessionId s |}).

Definition handleDeleteSession_resume (sessionId : jsstring)
    (reply : Result unit) (s : State) : option jsstring * Reaction :=
  (None,
   toast_outcome "Session deleted successfully" "Failed to delete session"
     (deleteSession_resume sessionId reply s)).

(** [SessionInfo.handleClearChat]: [messages] is the store's, as the hook
    gave it to the component. *)
Definition handleClearChat (messages : list Message) (s : State) : Reaction :=
  if bool_decide (length messages = 0)
  then {| toasted := []; did := nothing s |}
  else {| toasted := [toast_success "Chat cleared"];
          did := nothing (clearChat s) |}.

(** [ChatInterface]: [showEmptyState]. *)
Definition showEmptyState (s : State) : bool :=
  bool_decide (length (messages s) = 0) && negb (isLoading s).

End Handlers.

(** ** The chat store under interleaved operations

    Operations can be called while others are suspended, and replies arrive
    in any order. A world is the store together with the requests in
    flight; an event is a call of an operation or the arrival of the reply
    to one request in flight. *)

Module Interleaving.
Import ChatStore.

Record World : Type := {
  current : State;
  inflight : list Request
}.

Definition start : World := {| current := initial; inflight := [] |}.

Inductive Call : Type :=
| call_initializeSession
| call_fetchSessions
| call_switchSession (sessionId : jsstring)
| call_deleteSession (sessionId : jsstring)
| call_sendMessage (message : jsstring) (documentIds : list jsstring)
| call_clearChat.

(** The first segment of the operation called. *)
Definition invoke (c : Call) (s : State) : Step State :=
  match c with
  | call_initializeSession => initializeSession_call s
  | call_fetchSessions => fetchSessions_call s
  | call_switchSession sessionId => switchSession_call sessionId s
  | call_deleteSession sessionId => deleteSession_call sessionId s
  | call_sendMessage message documentIds =>
      sendMessage_call message documentIds s
  | call_clearChat => nothing (clearChat s)
  end.

(** The reply to a request, by the endpoint that gives it. *)
Inductive Reply : Type :=
| reply_create (r : Result jsstring)
| reply_sessions (r : Result (list SessionSummary))
| reply_history (r : Result SessionHistory)
| reply_delete (r : Result unit)
| reply_chat (r : Result ChatResponse).

(** The segment that awaits a request: each request of [chatAPI] is awaited
    in one place of the store. A reply of another endpoint's shape does not
    occur. *)
Definition resume (rq : Request) (reply : Reply)
  : option (State -> Step State) :=
  match rq, reply with
  | createSession, reply_create r => Some (initializeSession_resume r)
  | getAllSessions, reply_sessions r => Some (fetchSessions_resume r)
  | getSessionHistory sessionId, reply_history r =>
      Some (switchSession_resume sessionId r)
  | deleteSessionRequest sessionId, reply_delete r =>
      Some (deleteSession_resume sessionId r)
  | sendMessageRequest _, reply_chat r => Some (sendMessage_resume r)
  | _, _ => None
  end.

Inductive Event : Type :=
| Invoke (c : Call)
| Settle (i : nat) (reply : Reply).

(** The world after a segment ran: its store, and its requests added to
    those still in flight. *)
Definition absorb (still : list Request) (r : Step State) : World :=
  {| current := store r; inflight := still ++ requests r |}.

(** One event. The reply to the [i]-th request in flight resumes the segment
    awaiting it; an event that cannot occur (no such request, a reply of the
    wrong shape) changes nothing. *)
Definition fire (w : World) (e : Event) : World :=
  match e with
  | Invoke c => absorb (inflight w) (invoke c (current w))
  | Settle i reply =>
      match inflight w !! i with
      | Some rq =>
          match resume rq reply with
          | Some k => absorb (delete i (inflight w)) (k (current w))
          | None => w
          end
      | None => w
      end
  end.

Definition run (events : list Event) (w : World) : World :=
  foldl fire w events.

Definition is_send (rq : Request) : bool :=
  match rq with sendMessageRequest _ => true | _ => false end.

Definition is_switch (rq : Request) : bool :=
  match rq with getSessionHistory _ => true | _ => false end.

Definition is_fetch (rq : Request) : bool :=
  match rq with getAllSessions => true | _ => false end.

(** The number of [sendMessage] calls suspended. *)
Definition sends_in_flight (w : World) : nat :=
  length (filter (fun rq => is_send rq = true) (inflight w)).

(** With no active session, every message in the sequence belongs to a
    [sendMessage] still suspended. *)
Definition pending_covers (w : World) : Prop :=
  sessionId (current w) = None ->
  length (messages (current w)) <= sends_in_flight w.

(** A loading flag that is set has a request in flight whose reply clears
    it. *)
Definition flags_backed (w : World) : Prop :=
  (isLoading (current w) = true ->
   existsb (fun rq => is_send rq || is_switch rq) (inflight w) = true)
  /\ (sessionsLoading (current w) = true ->
      existsb is_fetch (inflight w) = true).

(** What the store without a sessions list sees of the store with one. *)
Definition forget (s : State) : SessionlessChatStore.State :=
  {| SessionlessChatStore.sessionId := sessionId s;
     SessionlessChatStore.messages := messages s;
     SessionlessChatStore.isLoading := isLoading s |}.

End Interleaving.

(** * Properties *)

(** ** Lists and strings *)

Lemma slice_0_m1_snoc {A} (l : list A) (x : A) : slice_0_m1 (l ++ [x]) = l.
Proof.
  unfold slice_0_m1. rewrite length_app. simpl.
  replace (length l + 1 - 1) with (length l) by lia.
  by rewrite take_app_length.
Qed.

Lemma slice_0_m1_nil {A} : slice_0_m1 (@nil A) = [].
Proof. reflexivity. Qed.

Example trim_spaces : trim (lit "  hi there  ") = lit "hi there".
Proof. reflexivity. Qed.

Example trim_blank : trim (lit "   ") = [].
Proof. reflexivity. Qed.

(** ** sendMessage *)

Module SendMessageFacts.
Import ChatStore.

(** The scenario of a first question asked with no session. *)
Example first_question :
  let response := {| answer := lit "X is Y";
                     resp_sources := [lit "doc1:p2"];
                     resp_session_id := lit "abc" |} in
  let pending := sendMessage_call (lit "What is X?") [lit "doc1"] initial in
  let done := sendMessage_resume (Ok response) (store pending) in
  messages (store pending) = [user_message (lit "What is X?")]
  /\ isLoading (store pending) = true
  /\ messages (store done)
     = [ {| role := user; content := lit "What is X?"; sources := None |};
         {| role := assistant; content := lit "X is Y";
            sources := Some [lit "doc1:p2"] |} ]
  /\ sessionId (store done) = Some (lit "abc").
Proof. repeat split. Qed.

(** C1. Whatever the history [messages s], a [sendMessage text documentIds]
    whose request succeeds with [response] returns with the history
    [messages s] followed by the user message (role [user], content [text],
    no sources) and the assistant message (role [assistant], the response's
    answer as content, the response's sources), the loading flag false and
    the response's session id as the active one; the request
    carried the session id read at the call, and a refresh of the sessions
    list was started. The history, the flag and the session id come out the
    same when other operations ran while the request was in flight, as long
    as the store [s'] they left still holds the sequence the call left. The
    same holds in the store without a sessions list, except for the
    refresh. *)
Theorem sendMessage_success (text : jsstring) (documentIds : list jsstring)
    (response : ChatResponse) :
  (forall s : State,
     let r := run_sendMessage text documentIds (Ok response) s in
     messages (store r)
       = messages s
           ++ [ {| role := user; content := text; sources := None |};
                {| role := assistant; content := answer response;
                   sources := Some (resp_sources response) |} ]
     /\ isLoading (store r) = false
     /\ sessionId (store r) = Some (resp_session_id response)
     /\ sessions (store r) = sessions s
     /\ outcome r = Resolved
     /\ requests r
        = [sendMessageRequest {| question := text;
                                 document_ids := documentIds;
                                 req_session_id := sessionId s |};
           getAllSessions])
  /\ (forall s s' : State,
        let pending :=
          set_messages
            (messages s
               ++ [ {| role := user; content := text; sources := None |} ])
            s' in
        let r := sendMessage_resume (Ok response) pending in
        messages (store r)
          = messages s
              ++ [ {| role := user; content := text; sources := None |};
                   {| role := assistant; content := answer response;
                      sources := Some (resp_sources response) |} ]
        /\ isLoading (store r) = false
        /\ sessionId (store r) = Some (resp_session_id response))
  /\ (forall s : SessionlessChatStore.State,
        let r := SessionlessChatStore.run_sendMessage
                   text documentIds (Ok response) s in
        store r
          = {| SessionlessChatStore.sessionId := Some (resp_session_id response);
               SessionlessChatStore.messages :=
                 SessionlessChatStore.messages s
                   ++ [ {| role := user; content := text; sources := None |};
                        {| role := assistant; content := answer response;
                           sources := Some (resp_sources response) |} ];
               SessionlessChatStore.isLoading := false |}
        /\ outcome r = Resolved).
Proof.
  split_and!.
  - intros s r; subst r; cbn. rewrite <- app_assoc. by split_and!.
  - intros s s' pending r; subst r pending; cbn.
    rewrite <- app_assoc. by split_and!.
  - intros s r; subst r; cbn. rewrite <- app_assoc. by split_and!.
Qed.

(** C2. Whatever the history [messages s], a [sendMessage] whose request
    fails with [error] leaves exactly [messages s], clears the loading flag,
    leaves the active session id (and the sessions list) as they were, and
    rejects with [error]: the store is the one before the call with the
    loading flag cleared. The history is restored in the same way when other
    operations ran while the request was in flight, as long as the store
    [s'] they left still holds the sequence the call left. The same holds in
    the store without a sessions list. *)
Theorem sendMessage_failure (text : jsstring) (documentIds : list jsstring)
    (error : Error) :
  (forall s : State,
     let r := run_sendMessage text documentIds (Err error) s in
     store r = set_isLoading false s
     /\ messages (store r) = messages s
     /\ isLoading (store r) = false
     /\ sessionId (store r) = sessionId s
     /\ sessions (store r) = sessions s
     /\ outcome r = Rejected error)
  /\ (forall s s' : State,
        let pending := set_messages (messages s ++ [user_message text]) s' in
        let r := sendMessage_resume (Err error) pending in
        messages (store r) = messages s
        /\ isLoading (store r) = false
        /\ sessionId (store r) = sessionId s'
        /\ outcome r = Rejected error)
  /\ (forall s : SessionlessChatStore.State,
        let r := SessionlessChatStore.run_sendMessage
                   text documentIds (Err error) s in
        store r
          = {| SessionlessChatStore.sessionId := SessionlessChatStore.sessionId s;
               SessionlessChatStore.messages := SessionlessChatStore.messages s;
               SessionlessChatStore.isLoading := false |}
        /\ outcome r = Rejected error).
Proof.
  split_and!.
  - intros s r; subst r; cbn. rewrite slice_0_m1_snoc. by split_and!.
  - intros s s' pending r; subst r pending; cbn.
    rewrite slice_0_m1_snoc. by split_and!.
  - intros s r; subst r; cbn. rewrite slice_0_m1_snoc. by split_and!.
Qed.

(** [sendMessage] has no guard of its own: with an empty text, and with the
    loading flag already set, it appends the user message, sets the flag and
    issues the request. *)
Lemma sendMessage_unguarded :
  let r1 := sendMessage_call [] [lit "doc1"] initial in
  let busy := store (sendMessage_call (lit "q1") [lit "doc1"] initial) in
  let r2 := sendMessage_call (lit "q2") [lit "doc1"] busy in
  (store r1 <> initial
   /\ requests r1 <> []
   /\ messages (store r1) = [user_message []]
   /\ isLoading initial = false /\ isLoading (store r1) = true
   /\ requests r1 = [sendMessageRequest {| question := [];
                                            document_ids := [lit "doc1"];
                                            req_session_id := None |}])
  /\ (isLoading busy = true
      /\ store r2 <> busy
      /\ requests r2 <> []
      /\ messages busy = [user_message (lit "q1")]
      /\ messages (store r2)
         = [user_message (lit "q1"); user_message (lit "q2")]
      /\ requests r2 = [sendMessageRequest {| question := lit "q2";
                                               document_ids := [lit "doc1"];
                                               req_session_id := None |}]).
Proof. by split_and!. Qed.

(** C3, as the code has it. The check is made by the caller:
    [ChatInput.handleSubmit] returns without calling [sendMessage] when the
    trimmed input is empty or the loading flag it rendered with is set: the
    store, the input box and the toasts are untouched and no request is
    issued. [sendMessage] itself, called with the same text, would have
    appended the user message, set the flag and issued the request. *)
Theorem handleSubmit_rejects (input : jsstring) (isLoading' disabled : bool)
    (selectedFiles : list jsstring) (s : State) :
  trim input = [] \/ isLoading' = true ->
  ChatInput.handleSubmit input isLoading' disabled selectedFiles s
    = {| input_after := input; toasts := []; step := nothing s |}
  /\ (let r := sendMessage_call input selectedFiles s in
      messages (store r) = messages s ++ [user_message input]
      /\ isLoading (store r) = true
      /\ length (requests r) = 1).
Proof.
  intros H. split; [|by repeat split].
  unfold ChatInput.handleSubmit.
  destruct H as [-> | ->].
  - by rewrite bool_decide_eq_true_2.
  - by rewrite orb_true_r.
Qed.

Lemma handleSubmit_rejects_witness :
  (trim (lit "  ") = [] \/ isLoading initial = true)
  /\ ChatInput.handleSubmit (lit "  ") (isLoading initial) false [lit "doc1"]
       initial
     = {| input_after := lit "  "; toasts := []; step := nothing initial |}.
Proof.
  split; [left; reflexivity|].
  apply (handleSubmit_rejects (lit "  ") (isLoading initial) false
           [lit "doc1"] initial).
  left; reflexivity.
Defined.

End SendMessageFacts.

(** ** Session lifecycle *)

Module SessionFacts.
Import ChatStore.

(** [switchSession] has no check of its own: called with the active id it
    sets the loading flag and fetches the history, and its completion
    replaces the message sequence with what was fetched. *)
Lemma switchSession_same_id_unguarded :
  let r := switchSession_call (lit "a") chatting in
  let r' := run_switchSession (lit "a") (Ok {| history_messages := [] |})
              chatting in
  sessionId chatting = Some (lit "a")
  /\ store r <> chatting
  /\ isLoading (store r) = true
  /\ requests r = [getSessionHistory (lit "a")]
  /\ store r' <> chatting
  /\ messages (store r') = []
  /\ requests r' = [getSessionHistory (lit "a"); getAllSessions].
Proof. by repeat split. Qed.

(** C5, as the code has it. The check is made by the caller: when the id
    clicked is the active session id, [SessionList.handleSwitchSession]
    returns without calling [switchSession]: no request is issued and the
    whole store is as it was. *)
Theorem handleSwitchSession_same_id (sessionId' : jsstring) (s : State) :
  sessionId s = Some sessionId' ->
  let r := SessionList.handleSwitchSession sessionId' (sessionId s) s in
  store r = s /\ requests r = [] /\ r = nothing s.
Proof.
  intros H r. subst r. unfold SessionList.handleSwitchSession.
  rewrite H. by rewrite decide_True.
Qed.

Lemma handleSwitchSession_same_id_witness :
  sessionId chatting = Some (lit "a")
  /\ SessionList.handleSwitchSession (lit "a") (sessionId chatting) chatting
     = nothing chatting.
Proof.
  split; [reflexivity|].
  apply (handleSwitchSession_same_id (lit "a") chatting). reflexivity.
Defined.

(** [initializeSession] with a session already active: a new session is
    requested and replaces the active one, the messages stay. *)
Lemma initializeSession_replaces_active :
  let r := run_initializeSession (Ok (lit "b")) chatting in
  sessionId chatting = Some (lit "a")
  /\ store r <> chatting
  /\ sessionId (store r) = Some (lit "b")
  /\ messages (store r) = messages chatting
  /\ messages (store r) <> []
  /\ requests r = [createSession; getAllSessions].
Proof. by repeat split. Qed.

(** C6, as the code has it. [initializeSession] requests a new session id
    whether or not a session is active. On success the new id becomes the
    active one, the message sequence, the loading flag and the cached
    sessions list stay as they were, and a refresh of the sessions list is
    started ([sessionsLoading] set, [getAllSessions] issued). On failure the
    error is logged, the store is left as it was, and the promise still
    resolves. The store without a sessions list does the same without the
    refresh. *)
Theorem initializeSession_effect :
  (forall (s : State) (new_id : jsstring),
     let r := run_initializeSession (Ok new_id) s in
     store r = set_sessionsLoading true (set_sessionId (Some new_id) s)
     /\ sessionId (store r) = Some new_id
     /\ messages (store r) = messages s
     /\ requests r = [createSession; getAllSessions]
     /\ outcome r = Resolved)
  /\ (forall (s : State) (error : Error),
        let r := run_initializeSession (Err error) s in
        store r = s /\ requests r = [createSession]
        /\ console r = [("Failed to initialize session:"%string, error)]
        /\ outcome r = Resolved)
  /\ (forall (s : SessionlessChatStore.State) (new_id : jsstring),
        let r := SessionlessChatStore.run_initializeSession (Ok new_id) s in
        SessionlessChatStore.sessionId (store r) = Some new_id
        /\ SessionlessChatStore.messages (store r)
           = SessionlessChatStore.messages s
        /\ requests r = [createSession]
        /\ outcome r = Resolved)
  /\ (forall (s : SessionlessChatStore.State) (error : Error),
        let r := SessionlessChatStore.run_initializeSession (Err error) s in
        store r = s /\ outcome r = Resolved).
Proof. by repeat split. Qed.

(** C7. [deleteSession sessionId'], when the backend succeeds, keeps exactly
    the cached sessions whose id differs from [sessionId'], in their order;
    it clears the active session id and the message sequence if
    [sessionId'] was the active session and leaves both as they were
    otherwise; the loading flags are untouched and no further request is
    issued. When the backend fails with [error], the store is as it was and
    the promise rejects with [error]. *)
Theorem deleteSession_effect (sessionId' : jsstring) (s : State) :
  (let r := run_deleteSession sessionId' (Ok ()) s in
   sessions (store r)
     = filter (fun x => session_id x <> sessionId') (sessions s)
   /\ (forall x, x ∈ sessions (store r)
                 <-> (x ∈ sessions s /\ session_id x <> sessionId'))
   /\ (sessionId' ∉ (session_id <$> sessions (store r)))
   /\ sessionId (store r)
      = (if decide (sessionId s = Some sessionId') then None else sessionId s)
   /\ messages (store r)
      = (if decide (sessionId s = Some sessionId') then [] else messages s)
   /\ isLoading (store r) = isLoading s
   /\ sessionsLoading (store r) = sessionsLoading s
   /\ requests r = [deleteSessionRequest sessionId']
   /\ outcome r = Resolved)
  /\ (forall error : Error,
        let r := run_deleteSession sessionId' (Err error) s in
        store r = s /\ outcome r = Rejected error).
Proof.
  split; [|by repeat split].
  unfold run_deleteSession, and_then, deleteSession_call, deleteSession_resume.
  cbn [store requests console outcome].
  assert (Hmem : forall x, x ∈ filter (fun x => session_id x <> sessionId')
                                   (sessions s)
                           <-> x ∈ sessions s /\ session_id x <> sessionId').
  { intros x. rewrite list_elem_of_filter. tauto. }
  assert (Hgone : sessionId' ∉ session_id <$>
                    filter (fun x => session_id x <> sessionId') (sessions s)).
  { intros (x & Hx & Hin)%list_elem_of_fmap.
    apply Hmem in Hin. destruct Hin as [_ Hne]. by apply Hne. }
  cbn [set_sessions sessionId sessions].
  destruct (decide (sessionId s = Some sessionId')) as [Hact | Hact]; cbn;
    by split_and!.
Qed.

End SessionFacts.

(** ** Failed refreshes *)

Module RefreshFacts.

(** A failed [fetchSessions] only clears [sessionsLoading] and logs. *)
Lemma fetchSessions_failure (error : Error) (s : ChatStore.State) :
  ChatStore.fetchSessions_resume (Err error) s
    = {| store := ChatStore.set_sessionsLoading false s; requests := [];
         console := [("Failed to fetch sessions:"%string, error)];
         outcome := Resolved |}
  /\ store (ChatStore.run_fetchSessions (Err error) s)
     = ChatStore.set_sessionsLoading false s.
Proof. by split. Qed.

(** A failed [loadFiles] only clears [isLoading] and logs. *)
Lemma loadFiles_failure (error : Error) (s : FileStore.State) :
  FileStore.loadFiles_resume (Err error) s
    = {| store := FileStore.set_isLoading false s; requests := [];
         console := [("Failed to load files:"%string, error)];
         outcome := Resolved |}
  /\ store (FileStore.run_loadFiles (Err error) s)
     = FileStore.set_isLoading false s.
Proof. by split. Qed.

(** C8. A failed [fetchSessions] leaves the cached sessions list exactly as
    it was and clears [sessionsLoading]; a failed [loadFiles] leaves the
    cached files list exactly as it was and clears [isLoading]. Both hold
    for the whole operation and for its completion on any store, so also
    when other operations ran while the request was in flight; nothing else
    in the store changes and the promise resolves. *)
Theorem failed_refresh_keeps_list (error : Error) :
  (forall s : ChatStore.State,
     let r := ChatStore.run_fetchSessions (Err error) s in
     let r' := ChatStore.fetchSessions_resume (Err error) s in
     ChatStore.sessions (store r) = ChatStore.sessions s
     /\ ChatStore.sessionsLoading (store r) = false
     /\ store r = ChatStore.set_sessionsLoading false s
     /\ outcome r = Resolved
     /\ ChatStore.sessions (store r') = ChatStore.sessions s
     /\ ChatStore.sessionsLoading (store r') = false)
  /\ (forall s : FileStore.State,
        let r := FileStore.run_loadFiles (Err error) s in
        let r' := FileStore.loadFiles_resume (Err error) s in
        FileStore.files (store r) = FileStore.files s
        /\ FileStore.isLoading (store r) = false
        /\ store r = FileStore.set_isLoading false s
        /\ outcome r = Resolved
        /\ FileStore.files (store r') = FileStore.files s
        /\ FileStore.isLoading (store r') = false).
Proof. by split_and!. Qed.

End RefreshFacts.

(** ** The invariant of the active conversation *)

Module InvariantFacts.
Import ChatStore.

(** [sendMessage] called with no active session: until the reply arrives the
    store holds the user message under no session id. *)
Lemma sendMessage_pending_without_session :
  let r := sendMessage_call (lit "What is X?") [lit "doc1"] initial in
  no_session_no_messages initial
  /\ sessionId (store r) = None
  /\ messages (store r) = [user_message (lit "What is X?")]
  /\ ~ no_session_no_messages (store r).
Proof.
  split_and!; try done.
  intros H. by specialize (H eq_refl).
Qed.

Lemma invariant_initial : no_session_no_messages initial.
Proof. done. Qed.

Lemma invariant_sendMessage_resume (reply : Result ChatResponse) (s : State) :
  no_session_no_messages s ->
  no_session_no_messages (store (sendMessage_resume reply s)).
Proof.
  intros H. destruct reply as [response | error]; cbn; [done|].
  intros Hnone. cbn in *. by rewrite (H Hnone).
Qed.

Lemma invariant_deleteSession_resume (sessionId' : jsstring)
    (reply : Result unit) (s : State) :
  no_session_no_messages s ->
  no_session_no_messages (store (deleteSession_resume sessionId' reply s)).
Proof.
  intros H. destruct reply as [[] | error]; cbn; [|done].
  destruct (decide _); cbn; [done|]. exact H.
Qed.

(** C9, as the code has it. The invariant holds in the initial store; every
    segment of [initializeSession], [fetchSessions], [switchSession] and
    [deleteSession], both completions of [sendMessage], and [clearChat]
    preserve it; the first segment of [sendMessage] preserves it when a
    session is active; and a whole [sendMessage], with either reply,
    preserves it. The state between the two segments of a [sendMessage]
    called with no active session is not covered: there the user message
    sits in the sequence while the session id is still none. *)
Theorem invariant_preserved (s : State) :
  no_session_no_messages s ->
  no_session_no_messages initial
  /\ no_session_no_messages (store (initializeSession_call s))
  /\ (forall reply,
        no_session_no_messages (store (initializeSession_resume reply s)))
  /\ no_session_no_messages (store (fetchSessions_call s))
  /\ (forall reply,
        no_session_no_messages (store (fetchSessions_resume reply s)))
  /\ (forall sessionId',
        no_session_no_messages (store (switchSession_call sessionId' s)))
  /\ (forall sessionId' reply,
        no_session_no_messages (store (switchSession_resume sessionId' reply s)))
  /\ (forall sessionId',
        no_session_no_messages (store (deleteSession_call sessionId' s)))
  /\ (forall sessionId' reply,
        no_session_no_messages (store (deleteSession_resume sessionId' reply s)))
  /\ (forall reply,
        no_session_no_messages (store (sendMessage_resume reply s)))
  /\ no_session_no_messages (clearChat s)
  /\ (forall message documentIds,
        is_Some (sessionId s) ->
        no_session_no_messages (store (sendMessage_call message documentIds s)))
  /\ (forall message documentIds reply,
        no_session_no_messages
          (store (run_sendMessage message documentIds reply s))).
Proof.
  intros H. split_and!; try done.
  - by intros [new_id | error].
  - by intros [sessions' | error].
  - by intros sessionId' [history | error].
  - intros. by apply invariant_deleteSession_resume.
  - intros. by apply invariant_sendMessage_resume.
  - intros message documentIds [sid Hsid] Hnone. cbn in Hnone. congruence.
  - intros message documentIds [response | error]; [done|].
    intros Hnone. cbn in *. rewrite slice_0_m1_snoc. by apply H.
Qed.

Lemma invariant_preserved_witness :
  let r := run_sendMessage (lit "q") [lit "doc1"] (Err (lit "timeout"))
             initial in
  no_session_no_messages initial
  /\ sessionId (store r) = None
  /\ messages (store r) = [].
Proof.
  split; [intros _; reflexivity|]. split; [reflexivity|].
  apply (invariant_preserved initial); [intros _; reflexivity | reflexivity].
Defined.

End InvariantFacts.

(** ** Replies that arrive late *)

Module StaleReplyFacts.
Import ChatStore.

(** Two traces in which a reply arrives after the active session changed.
    First: [switchSession a] and [switchSession b] are both in flight, the
    history of [b] arrives, then the history of [a]: it is applied, and [a]
    becomes active again. Second: a question is sent in session [a], the
    user switches to [b] and its history arrives, then the chat reply
    arrives: it is applied to the history of [b]. *)
Lemma late_reply_is_applied :
  (let s1 := store (switchSession_call (lit "a") initial) in
   let s2 := store (switchSession_call (lit "b") s1) in
   let s3 := store (switchSession_resume (lit "b") (Ok history_b) s2) in
   let s4 := store (switchSession_resume (lit "a") (Ok history_a) s3) in
   sessionId s3 = Some (lit "b")
   /\ messages s3 = convert <$> history_messages history_b
   /\ s4 <> s3
   /\ sessionId s4 = Some (lit "a")
   /\ messages s4 = convert <$> history_messages history_a)
  /\ (let response := {| answer := lit "answer for a";
                         resp_sources := [];
                         resp_session_id := lit "a" |} in
      let t1 := store (sendMessage_call (lit "q") [lit "doc1"] chatting) in
      let t2 := store (switchSession_call (lit "b") t1) in
      let t3 := store (switchSession_resume (lit "b") (Ok history_b) t2) in
      let t4 := store (sendMessage_resume (Ok response) t3) in
      sessionId chatting = Some (lit "a")
      /\ sessionId t3 = Some (lit "b")
      /\ messages t3 = convert <$> history_messages history_b
      /\ t4 <> t3
      /\ sessionId t4 = Some (lit "a")
      /\ messages t4
         = [ {| role := user; content := lit "asked in b"; sources := None |};
             {| role := assistant; content := lit "answer for a";
                sources := Some [] |} ]).
Proof. by split_and!. Qed.

(** C4, as the code has it. No completion compares the active session id
    with anything captured at the call: each reply is applied to the store
    as it is when the reply arrives. The completion of [switchSession id]
    sets the active id to [id] together with the history fetched for [id]
    (the empty sequence on failure) and clears the loading flag, whatever
    the store held, so of two completions the later one wins. The
    successful completion of [sendMessage] appends the assistant message to
    the current sequence and makes the response's session id active. *)
Theorem completions_unconditional (s : State) :
  (forall sessionId' history,
     let r := store (switchSession_resume sessionId' (Ok history) s) in
     sessionId r = Some sessionId'
     /\ messages r = convert <$> history_messages history
     /\ isLoading r = false)
  /\ (forall sessionId' error,
        let r := store (switchSession_resume sessionId' (Err error) s) in
        sessionId r = Some sessionId' /\ messages r = [] /\ isLoading r = false)
  /\ (forall id1 reply1 id2 reply2,
        let first := store (switchSession_resume id1 reply1 s) in
        let r := store (switchSession_resume id2 reply2 first) in
        let alone := store (switchSession_resume id2 reply2 s) in
        sessionId r = sessionId alone
        /\ messages r = messages alone
        /\ isLoading r = isLoading alone)
  /\ (forall response,
        let r := store (sendMessage_resume (Ok response) s) in
        sessionId r = Some (resp_session_id response)
        /\ messages r
           = messages s
               ++ [ {| role := assistant; content := answer response;
                       sources := Some (resp_sources response) |} ]
        /\ isLoading r = false).
Proof.
  split_and!; try done.
  intros id1 reply1 id2 [history | error]; by destruct reply1.
Qed.

End StaleReplyFacts.

(** ** The selection *)

Module SelectionFacts.
Import FileStore.

(** The scenario of a toggle that changes the selection while a
    conversation is shown. *)
Example toggle_then_clear :
  let fs := set_selectedFiles [lit "doc1"] initial in
  let after := FileList.handleFileToggle (lit "doc2") (fs, ChatStore.chatting) in
  selectedFiles (fst after) = [lit "doc1"; lit "doc2"]
  /\ ChatStore.messages (snd after) = []
  /\ ChatStore.sessionId (snd after) = ChatStore.sessionId ChatStore.chatting.
Proof. by split_and!. Qed.

(** Toggling an id that is selected twice keeps the set but not the order. *)
Example toggle_twice_reorders :
  let s := set_selectedFiles [lit "doc1"; lit "doc2"] initial in
  selectedFiles (toggleFileSelection (lit "doc1")
                   (toggleFileSelection (lit "doc1") s))
  = [lit "doc2"; lit "doc1"].
Proof. reflexivity. Qed.

Lemma flip_spec (fileId x : jsstring) (X : gset jsstring) :
  x ∈ flip fileId X <-> (x ∈ X /\ x <> fileId) \/ ((x ∉ X) /\ x = fileId).
Proof.
  unfold flip. destruct (decide (fileId ∈ X)) as [Hin | Hout].
  - rewrite elem_of_difference, elem_of_singleton. split.
    + intros [? ?]. by left.
    + intros [[? ?] | [Hx ->]]; [done | by destruct Hx].
  - rewrite elem_of_union, elem_of_singleton. split.
    + intros [Hx | ->]; [left | right]; split; try done.
      intros ->. by apply Hout.
    + intros [[? ?] | [_ ->]]; [by left | by right].
Qed.

Lemma flip_symmetric_difference (fileId : jsstring) (X : gset jsstring) :
  flip fileId X = (X ∖ {[fileId]}) ∪ ({[fileId]} ∖ X).
Proof.
  apply set_eq. intros x.
  rewrite flip_spec, elem_of_union, !elem_of_difference, !elem_of_singleton.
  tauto.
Qed.

Lemma flip_flip (fileId : jsstring) (X : gset jsstring) :
  flip fileId (flip fileId X) = X.
Proof.
  apply set_eq. intros x. rewrite !flip_spec.
  destruct (decide (x = fileId)) as [-> | Hne]; [|tauto].
  destruct (decide (fileId ∈ X)); tauto.
Qed.

Lemma selection_toggle (fileId : jsstring) (s : State) :
  selection (toggleFileSelection fileId s) = flip fileId (selection s).
Proof.
  apply set_eq. intros x. rewrite flip_spec.
  unfold selection, toggleFileSelection. cbn [selectedFiles set_selectedFiles].
  rewrite !elem_of_list_to_set.
  destruct (bool_decide_reflect (fileId ∈ selectedFiles s)) as [Hin | Hout].
  - rewrite list_elem_of_filter. split.
    + intros [? ?]. by left.
    + intros [[? ?] | [Hx ->]]; [done | by destruct Hx].
  - rewrite elem_of_app, list_elem_of_singleton. split.
    + intros [Hx | ->]; [left | right]; split; try done.
      intros ->. by apply Hout.
    + intros [[? ?] | [_ ->]]; [by left | by right].
Qed.

Lemma toggleFileSelection_frame (fileId : jsstring) (s : State) :
  files (toggleFileSelection fileId s) = files s
  /\ isLoading (toggleFileSelection fileId s) = isLoading s
  /\ isUploading (toggleFileSelection fileId s) = isUploading s.
Proof. done. Qed.

Lemma flip_all_parity (fileIds : list jsstring) (x : jsstring)
    (X : gset jsstring) :
  bool_decide (x ∈ flip_all fileIds X)
  = xorb (bool_decide (x ∈ X))
         (Nat.odd (length (filter (fun fileId => fileId = x) fileIds))).
Proof.
  revert X. induction fileIds as [|fileId fileIds IH]; intros X.
  - cbn. by rewrite xorb_false_r.
  - cbn [flip_all foldl]. fold (flip_all fileIds (flip fileId X)).
    rewrite IH. rewrite filter_cons.
    assert (Hflip : bool_decide (x ∈ flip fileId X)
                    = xorb (bool_decide (x ∈ X)) (bool_decide (fileId = x))).
    { apply eq_true_iff_eq. rewrite bool_decide_eq_true, flip_spec.
      destruct (bool_decide_reflect (x ∈ X)), (bool_decide_reflect (fileId = x));
        cbn; intuition congruence. }
    rewrite Hflip.
    destruct (decide (fileId = x)) as [-> | Hne].
    + rewrite (bool_decide_eq_true_2 (x = x)) by done. cbn [length].
      rewrite Nat.odd_succ, <- Nat.negb_odd.
      by destruct (bool_decide (x ∈ X)), (Nat.odd _).
    + rewrite (bool_decide_eq_false_2 (fileId = x)) by done.
      by rewrite xorb_false_r.
Qed.

(** C10. After any sequence of [toggleFileSelection] calls from any store,
    the selection read as a set is the starting set with the membership of
    each toggled id flipped in turn; flipping one id is the symmetric
    difference with its singleton, so an id is selected at the end exactly
    when it was selected at the start and was toggled an even number of
    times, or was not and was toggled an odd number of times. From the
    initial store the result is the flips applied to the empty set, and
    toggling one id twice gives back the starting set. *)
Theorem toggle_all_selection (fileIds : list jsstring) (s : State) :
  selection (toggle_all fileIds s) = flip_all fileIds (selection s)
  /\ (forall fileId X, flip fileId X = (X ∖ {[fileId]}) ∪ ({[fileId]} ∖ X))
  /\ (forall x,
        bool_decide (x ∈ selection (toggle_all fileIds s))
        = xorb (bool_decide (x ∈ selection s))
               (Nat.odd (length (filter (fun fileId => fileId = x) fileIds))))
  /\ selection (toggle_all fileIds initial) = flip_all fileIds ∅
  /\ (forall fileId,
        selection (toggleFileSelection fileId (toggleFileSelection fileId s))
        = selection s).
Proof.
  assert (Hall : forall s', selection (toggle_all fileIds s')
                            = flip_all fileIds (selection s')).
  { induction fileIds as [|fileId fileIds IH]; intros s'; [done|].
    cbn [toggle_all flip_all foldl].
    fold (toggle_all fileIds (toggleFileSelection fileId s')).
    fold (flip_all fileIds (flip fileId (selection s'))).
    by rewrite IH, selection_toggle. }
  split_and!.
  - apply Hall.
  - apply flip_symmetric_difference.
  - intros x. rewrite Hall. apply flip_all_parity.
  - apply Hall.
  - intros fileId. by rewrite !selection_toggle, flip_flip.
Qed.

End SelectionFacts.

(** ** The chat store under interleaved operations *)

Module InterleavingFacts.
Import ChatStore Interleaving.

Lemma length_filter_delete {A} (P : A -> Prop) `{forall x, Decision (P x)}
    (l : list A) (i : nat) (x : A) :
  l !! i = Some x ->
  length (filter P l)
  = length (filter P (delete i l)) + (if decide (P x) then 1 else 0).
Proof.
  intros Hi. rewrite delete_take_drop.
  rewrite <- (take_drop_middle l i x Hi) at 1.
  rewrite !filter_app, filter_cons, !length_app.
  destruct (decide (P x)); cbn; lia.
Qed.

Lemma existsb_delete {A} (f : A -> bool) (l : list A) (i : nat) (x : A) :
  l !! i = Some x -> f x = false -> existsb f (delete i l) = existsb f l.
Proof.
  intros Hi Hx. rewrite delete_take_drop.
  rewrite <- (take_drop_middle l i x Hi) at 3.
  rewrite !existsb_app. cbn. by rewrite Hx.
Qed.

Lemma sends_in_flight_absorb (still : list Request) (r : Step State) :
  sends_in_flight (absorb still r)
  = length (filter (fun rq => is_send rq = true) still)
    + length (filter (fun rq => is_send rq = true) (requests r)).
Proof. unfold sends_in_flight, absorb. cbn. by rewrite filter_app, length_app. Qed.

Lemma pending_covers_fire (w : World) (e : Event) :
  pending_covers w -> pending_covers (fire w e).
Proof.
  intros H. destruct e as [c | i reply]; cbn.
  - unfold pending_covers in *. rewrite sends_in_flight_absorb.
    fold (sends_in_flight w).
    destruct c; cbn in *.
    all: try (intros Hn; specialize (H Hn); lia).
    intros Hn. specialize (H Hn).
    rewrite length_app, decide_True by done. cbn. lia.
  - destruct (inflight w !! i) as [rq|] eqn:Hi; [|done].
    destruct (resume rq reply) as [k|] eqn:Hk; [|done].
    unfold pending_covers in *. rewrite sends_in_flight_absorb.
    pose proof (length_filter_delete (fun rq => is_send rq = true)
                  (inflight w) i rq Hi) as Hlen.
    fold (sends_in_flight w) in Hlen.
    destruct rq, reply; try discriminate Hk; injection Hk as <-;
      match goal with r : Result _ |- _ => destruct r end; cbn in *;
      try rewrite decide_False in Hlen by done;
      try rewrite decide_True in Hlen by done;
      try done; try (intros Hn; specialize (H Hn); lia).
    + destruct (decide (sessionId (current w) = Some _)); cbn; [intros _; lia|].
      intros Hn; specialize (H Hn); lia.
    + intros Hn; specialize (H Hn).
      unfold slice_0_m1. rewrite length_take. lia.
Qed.

Lemma flags_backed_fire (w : World) (e : Event) :
  flags_backed w -> flags_backed (fire w e).
Proof.
  intros [Hl Hs]. destruct e as [c | i reply]; cbn.
  - unfold flags_backed, absorb. cbn. rewrite !existsb_app.
    destruct c; cbn; split; intros Hf; rewrite ?orb_true_r, ?orb_false_r;
      auto.
  - destruct (inflight w !! i) as [rq|] eqn:Hi; [|done].
    destruct (resume rq reply) as [k|] eqn:Hk; [|done].
    unfold flags_backed, absorb. cbn. rewrite !existsb_app.
    destruct rq, reply; try discriminate Hk; injection Hk as <-;
      match goal with r : Result _ |- _ => destruct r end; cbn;
      try destruct (decide _); cbn;
      split; intros Hf; rewrite ?orb_true_r, ?orb_false_r; try done;
      (rewrite existsb_delete with (x := _) by (done || by apply Hi); auto).
Qed.

Lemma pending_covers_run (events : list Event) (w : World) :
  pending_covers w -> pending_covers (run events w).
Proof.
  revert w. induction events as [|e events IH]; intros w H; [done|].
  apply IH. by apply pending_covers_fire.
Qed.

Lemma flags_backed_run (events : list Event) (w : World) :
  flags_backed w -> flags_backed (run events w).
Proof.
  revert w. induction events as [|e events IH]; intros w H; [done|].
  apply IH. by apply flags_backed_fire.
Qed.

(** Whatever operations of the chat store were called and in whichever
    order their replies arrived: while no session is active, the message
    sequence is no longer than the number of [sendMessage] calls still in
    flight; so when none is in flight and no session is active, the sequence
    is empty. *)
Theorem messages_without_session_are_pending (events : list Event) :
  let w := run events start in
  sessionId (current w) = None ->
  length (messages (current w)) <= sends_in_flight w
  /\ (sends_in_flight w = 0 -> messages (current w) = []).
Proof.
  intros w Hn.
  assert (H : pending_covers w).
  { apply pending_covers_run. intros _. cbn. lia. }
  specialize (H Hn). split; [done|].
  intros H0. rewrite H0 in H. destruct (messages (current w)); [done|].
  cbn in H. lia.
Qed.

Lemma messages_without_session_are_pending_witness :
  let w := run [Invoke (call_sendMessage (lit "q") [lit "doc1"]);
                Invoke call_fetchSessions] start in
  sessionId (current w) = None
  /\ length (messages (current w)) <= sends_in_flight w.
Proof.
  split; [reflexivity|].
  apply (messages_without_session_are_pending
           [Invoke (call_sendMessage (lit "q") [lit "doc1"]);
            Invoke call_fetchSessions]).
  reflexivity.
Defined.

(** Whatever operations of the chat store were called and in whichever
    order their replies arrived: if [isLoading] is set, a [sendMessage] or
    [switchSession] request is in flight, and if [sessionsLoading] is set, a
    [fetchSessions] request is in flight. So when no request is in flight
    both flags are clear: no flag stays set for ever. *)
Theorem loading_flags_are_backed (events : list Event) :
  let w := run events start in
  flags_backed w
  /\ (inflight w = [] ->
      isLoading (current w) = false /\ sessionsLoading (current w) = false).
Proof.
  intros w.
  assert (H : flags_backed w).
  { apply flags_backed_run. split; intros Hf; discriminate Hf. }
  split; [done|]. intros Hq. destruct H as [Hl Hs]. rewrite Hq in Hl, Hs.
  cbn in Hl, Hs. split.
  - destruct (isLoading (current w)); [by specialize (Hl eq_refl)|done].
  - destruct (sessionsLoading (current w)); [by specialize (Hs eq_refl)|done].
Qed.

Lemma loading_flags_are_backed_witness :
  let w := run [Invoke (call_switchSession (lit "a"));
                Settle 0 (reply_history (Err (lit "timeout")))] start in
  inflight w = []
  /\ isLoading (current w) = false /\ sessionsLoading (current w) = false.
Proof.
  split; [reflexivity|].
  apply (loading_flags_are_backed
           [Invoke (call_switchSession (lit "a"));
            Settle 0 (reply_history (Err (lit "timeout")))]).
  reflexivity.
Defined.

(** The store with a sessions list behaves, on [sessionId], [messages] and
    [isLoading], as the store without one: every segment of [sendMessage]
    and [initializeSession], and [clearChat], commute with forgetting the
    sessions list, end the same way, and [sendMessage] issues the same chat
    request. *)
Theorem sessionless_store_simulated (s : State) :
  (forall message documentIds,
     let r := sendMessage_call message documentIds s in
     let r' := SessionlessChatStore.sendMessage_call message documentIds
                 (forget s) in
     forget (store r) = store r' /\ requests r = requests r'
     /\ outcome r = outcome r')
  /\ (forall reply,
        let r := sendMessage_resume reply s in
        let r' := SessionlessChatStore.sendMessage_resume reply (forget s) in
        forget (store r) = store r' /\ outcome r = outcome r')
  /\ (forall reply,
        let r := initializeSession_resume reply s in
        let r' := SessionlessChatStore.initializeSession_resume reply
                    (forget s) in
        forget (store r) = store r' /\ outcome r = outcome r'
        /\ console r = console r')
  /\ forget (clearChat s) = SessionlessChatStore.clearChat (forget s)
  /\ forget initial = SessionlessChatStore.initial.
Proof.
  split_and!; try done.
  - by intros [response | error].
  - by intros [new_id | error].
Qed.

End InterleavingFacts.

(** ** trim *)

Module TrimFacts.

Lemma trimStart_decomp (s : jsstring) :
  exists pre, s = pre ++ trimStart s /\ forallb isWhiteSpace pre = true.
Proof.
  induction s as [|c s IH]; [by exists []|].
  cbn. destruct (isWhiteSpace c) eqn:Hc.
  - destruct IH as (pre & Hs & Hpre). exists (c :: pre). split.
    + cbn. by rewrite <- Hs.
    + cbn. by rewrite Hc.
  - by exists [].
Qed.

Lemma trimStart_clean (s : jsstring) : no_leading_space (trimStart s) = true.
Proof.
  induction s as [|c s IH]; [done|].
  cbn. destruct (isWhiteSpace c) eqn:Hc; [done|]. cbn. by rewrite Hc.
Qed.

Lemma trimStart_id (s : jsstring) :
  no_leading_space s = true -> trimStart s = s.
Proof.
  destruct s as [|c s]; [done|]. cbn. by destruct (isWhiteSpace c).
Qed.

Lemma trimStart_blank (s : jsstring) :
  forallb isWhiteSpace s = true -> trimStart s = [].
Proof.
  induction s as [|c s IH]; [done|].
  cbn. destruct (isWhiteSpace c); [exact IH | done].
Qed.

Lemma forallb_reverse (f : N -> bool) (l : list N) :
  forallb f (reverse l) = forallb f l.
Proof.
  induction l as [|x l IH]; [done|].
  rewrite reverse_cons, forallb_app, IH. cbn.
  by destruct (f x), (forallb f l).
Qed.

Lemma trimEnd_decomp (s : jsstring) :
  exists post, s = trimEnd s ++ post /\ forallb isWhiteSpace post = true.
Proof.
  destruct (trimStart_decomp (reverse s)) as (pre & Hs & Hpre).
  exists (reverse pre). split.
  - unfold trimEnd. rewrite <- reverse_app, <- Hs.
    by rewrite reverse_involutive.
  - by rewrite forallb_reverse.
Qed.

Lemma trimEnd_clean (s : jsstring) : no_trailing_space (trimEnd s) = true.
Proof.
  unfold no_trailing_space, trimEnd. rewrite reverse_involutive.
  apply trimStart_clean.
Qed.

Lemma trimEnd_id (s : jsstring) : no_trailing_space s = true -> trimEnd s = s.
Proof.
  intros H. unfold trimEnd. rewrite trimStart_id by done.
  apply reverse_involutive.
Qed.

Lemma trimEnd_keeps_clean_start (s : jsstring) :
  no_leading_space s = true -> no_leading_space (trimEnd s) = true.
Proof.
  intros H. destruct (trimEnd_decomp s) as (post & Hs & _).
  destruct (trimEnd s) as [|c u]; [done|].
  rewrite Hs in H. exact H.
Qed.

Lemma trim_clean (s : jsstring) :
  no_leading_space (trim s) = true /\ no_trailing_space (trim s) = true.
Proof.
  split.
  - apply trimEnd_keeps_clean_start, trimStart_clean.
  - apply trimEnd_clean.
Qed.

(** [trim] removes white space at the two ends and nothing else: the input
    is its result between two runs of white space; the result neither starts
    nor ends with white space; trimming again changes nothing; and the
    result is empty exactly when the input is all white space. *)
Theorem trim_spec (s : jsstring) :
  (exists pre post,
     s = pre ++ trim s ++ post
     /\ forallb isWhiteSpace pre = true /\ forallb isWhiteSpace post = true)
  /\ no_leading_space (trim s) = true
  /\ no_trailing_space (trim s) = true
  /\ trim (trim s) = trim s
  /\ (trim s = [] <-> forallb isWhiteSpace s = true).
Proof.
  destruct (trimStart_decomp s) as (pre & Hs & Hpre).
  destruct (trimEnd_decomp (trimStart s)) as (post & Ht & Hpost).
  fold (trim s) in Ht.
  destruct (trim_clean s) as [Hl Hr].
  split_and!; try done.
  - exists pre, post. by rewrite <- Ht.
  - unfold trim at 1. rewrite (trimStart_id (trim s)) by done.
    by apply trimEnd_id.
  - split.
    + intros He. rewrite He in Ht. cbn in Ht. rewrite Hs, Ht, forallb_app.
      by rewrite Hpre, Hpost.
    + intros Hb. unfold trim. by rewrite trimStart_blank.
Qed.

End TrimFacts.

(** ** The handlers *)

Module HandlerFacts.
Import ChatStore Handlers.

(** Whatever [ChatInput.handleSubmit] is given, a request it issues is the
    chat request whose question is the trimmed input, which is not empty
    and has no white space at its ends, whose documents are the selected
    files, of which there is at least one, and whose session id is the
    store's; it is issued only when the component is neither loading nor
    disabled, it is the only request, and the input box is emptied. *)
Theorem handleSubmit_request (input : jsstring) (isLoading' disabled : bool)
    (selectedFiles : list jsstring) (s : State) (rq : Request) :
  let h := ChatInput.handleSubmit input isLoading' disabled selectedFiles s in
  rq ∈ requests (step h) ->
  requests (step h) = [rq]
  /\ rq = sendMessageRequest {| question := trim input;
                                document_ids := selectedFiles;
                                req_session_id := sessionId s |}
  /\ trim input <> []
  /\ no_leading_space (trim input) = true
  /\ no_trailing_space (trim input) = true
  /\ selectedFiles <> []
  /\ isLoading' = false /\ disabled = false
  /\ input_after h = []
  /\ toasts h = [].
Proof.
  intros h. subst h. unfold ChatInput.handleSubmit.
  destruct (bool_decide_reflect (trim input = [])) as [He | He]; cbn;
    [by intros ?%elem_of_nil|].
  destruct isLoading'; cbn; [by intros ?%elem_of_nil|].
  destruct disabled; cbn; [by intros ?%elem_of_nil|].
  destruct (bool_decide_reflect (length selectedFiles = 0)) as [Hs | Hs]; cbn;
    [by intros ?%elem_of_nil|].
  intros ->%list_elem_of_singleton.
  destruct (TrimFacts.trim_clean input) as [Hl Hr].
  split_and!; try done.
  intros ->. by apply Hs.
Qed.

Lemma handleSubmit_request_witness :
  let rq := sendMessageRequest {| question := lit "What is X?";
                                  document_ids := [lit "doc1"];
                                  req_session_id := None |} in
  let h := ChatInput.handleSubmit (lit "  What is X? ") false false
             [lit "doc1"] initial in
  rq ∈ requests (step h) /\ requests (step h) = [rq].
Proof.
  split; [apply list_elem_of_singleton; reflexivity|].
  apply (handleSubmit_request (lit "  What is X? ") false false [lit "doc1"]
           initial).
  apply list_elem_of_singleton; reflexivity.
Defined.

(** A question that [ChatInput.handleSubmit] sent and whose request failed:
    the input box, emptied at the call, holds the trimmed question again,
    replacing whatever was typed meanwhile; the failure toast is raised; the
    message sequence is the one of before the call, the loading flag is
    clear, and the handler itself returns normally. When the request
    succeeds, the input box keeps what was typed, there is no toast, and
    the history ends with the question (role [user], the trimmed input, no
    sources) and the answer (role [assistant], the response's answer and
    sources). *)
Theorem handleSubmit_failure_restores_input (input typed : jsstring)
    (selectedFiles : list jsstring) (s : State) :
  trim input <> [] -> selectedFiles <> [] ->
  let h := ChatInput.handleSubmit input false false selectedFiles s in
  (forall error,
     let h' := handleSubmit_resume (trim input) (Err error) typed
                 (store (step h)) in
     input_after h = []
     /\ input_after h' = trim input
     /\ toasts h' = [toast_error "Failed to send message"]
     /\ store (step h') = set_isLoading false s
     /\ outcome (step h') = Resolved)
  /\ (forall response,
        let h' := handleSubmit_resume (trim input) (Ok response) typed
                    (store (step h)) in
        input_after h' = typed
        /\ toasts h' = []
        /\ messages (store (step h'))
           = messages s
               ++ [ {| role := user; content := trim input; sources := None |};
                    {| role := assistant; content := answer response;
                       sources := Some (resp_sources response) |} ]
        /\ outcome (step h') = Resolved).
Proof.
  intros He Hs h. subst h. unfold ChatInput.handleSubmit.
  rewrite bool_decide_eq_false_2 by done. cbn.
  rewrite bool_decide_eq_false_2 by (by destruct selectedFiles).
  split.
  - intros error. cbn. rewrite slice_0_m1_snoc. by split_and!.
  - intros response. cbn. rewrite <- app_assoc. by split_and!.
Qed.

Lemma handleSubmit_failure_restores_input_witness :
  let h := ChatInput.handleSubmit (lit " hi ") false false [lit "doc1"]
             chatting in
  let h' := handleSubmit_resume (trim (lit " hi ")) (Err (lit "timeout"))
              (lit "typed meanwhile") (store (step h)) in
  trim (lit " hi ") <> [] /\ [lit "doc1"] <> []
  /\ input_after h' = lit "hi".
Proof.
  split; [intros H; discriminate H|]. split; [intros H; discriminate H|].
  apply (handleSubmit_failure_restores_input (lit " hi ")
           (lit "typed meanwhile") [lit "doc1"] chatting).
  - intros H; discriminate H.
  - intros H; discriminate H.
Defined.

(** [switchSession] and [initializeSession] never reject, so the handlers
    around them always raise the success toast and never the failure one:
    [handleSwitchSession] also when the history could not be fetched (the
    session is switched and shown empty), [handleNewSession] and
    [handleNewChat] also when no session could be created (the store is as
    it was). *)
Theorem success_toast_whatever_the_reply (s : State) :
  (forall sessionId' reply,
     let h := handleSwitchSession_resume sessionId' reply s in
     toasted h = [toast_success "Switched to chat session"]
     /\ outcome (did h) = Resolved
     /\ sessionId (store (did h)) = Some sessionId'
     /\ isLoading (store (did h)) = false)
  /\ (forall sessionId' error,
        messages (store (did (handleSwitchSession_resume sessionId'
                                (Err error) s))) = [])
  /\ (forall reply,
        let h := handleNewSession_resume reply s in
        toasted h = [toast_success "New chat session created"]
        /\ outcome (did h) = Resolved)
  /\ (forall error,
        store (did (handleNewSession_resume (Err error) s)) = s).
Proof.
  split_and!; try done.
  - by intros sessionId' [history | error].
  - by intros [new_id | error].
Qed.

(** [SessionList.handleDeleteSession]: when the user does not confirm,
    nothing happens (no request, store and [deletingSession] as they were).
    When the user confirms, [deletingSession] is the session's id while the
    request is in flight and none once it has settled, whatever the reply;
    the success toast is raised exactly when the deletion succeeded and the
    failure toast exactly when it failed, in which case the store is as it
    was; the handler returns normally in both cases. *)
Theorem handleDeleteSession_effect (sessionId' : jsstring)
    (deletingSession : option jsstring) (s : State) :
  handleDeleteSession false sessionId' deletingSession s
  = (deletingSession, {| toasted := []; did := nothing s |})
  /\ (let h := handleDeleteSession true sessionId' deletingSession s in
      fst h = Some sessionId'
      /\ store (did (snd h)) = s
      /\ requests (did (snd h)) = [deleteSessionRequest sessionId']
      /\ toasted (snd h) = [])
  /\ (let h := handleDeleteSession_resume sessionId' (Ok ()) s in
      fst h = None
      /\ toasted (snd h) = [toast_success "Session deleted successfully"]
      /\ store (did (snd h)) = store (deleteSession_resume sessionId' (Ok ()) s)
      /\ outcome (did (snd h)) = Resolved)
  /\ (forall error,
        let h := handleDeleteSession_resume sessionId' (Err error) s in
        fst h = None
        /\ toasted (snd h) = [toast_error "Failed to delete session"]
        /\ store (did (snd h)) = s
        /\ outcome (did (snd h)) = Resolved).
Proof.
  split_and!; try done.
  all: unfold handleDeleteSession_resume, toast_outcome, deleteSession_resume;
    cbn; by destruct (decide _).
Qed.

(** [SessionInfo.handleClearChat] does nothing, and raises no toast, when
    the sequence it was rendered with is empty; otherwise it empties the
    store's sequence and leaves the session id, the sessions list and both
    flags as they were. Clearing twice is clearing once. *)
Theorem handleClearChat_effect (s : State) :
  (messages s = [] -> handleClearChat (messages s) s
                      = {| toasted := []; did := nothing s |})
  /\ (messages s <> [] ->
      handleClearChat (messages s) s
      = {| toasted := [toast_success "Chat cleared"];
           did := nothing (set_messages [] s) |})
  /\ clearChat (clearChat s) = clearChat s
  /\ handleClearChat (messages (clearChat s)) (clearChat s)
     = {| toasted := []; did := nothing (clearChat s) |}.
Proof.
  split_and!; try done.
  - intros H. unfold handleClearChat. by rewrite H.
  - intros H. unfold handleClearChat.
    rewrite bool_decide_eq_false_2; [done|]. by destruct (messages s).
Qed.

Lemma handleClearChat_effect_witness :
  messages chatting <> []
  /\ handleClearChat (messages chatting) chatting
     = {| toasted := [toast_success "Chat cleared"];
          did := nothing (set_messages [] chatting) |}.
Proof.
  split; [intros H; discriminate H|].
  apply (handleClearChat_effect chatting). intros H; discriminate H.
Defined.

End HandlerFacts.

(** ** More on the chat store *)

Module ChatStoreFacts.
Import ChatStore.

Lemma slice_0_m1_prefix {A} (l : list A) : slice_0_m1 l `prefix_of` l.
Proof. unfold slice_0_m1. apply prefix_take. Qed.

Lemma slice_0_m1_length {A} (l : list A) :
  length (slice_0_m1 l) = Nat.pred (length l).
Proof. unfold slice_0_m1. rewrite length_take. lia. Qed.

(** The rollback of a failed [sendMessage], on whatever store it finds when
    the failure arrives: it removes the last message of the sequence if
    there is one and nothing otherwise (an emptied sequence stays empty and
    nothing is thrown but the error itself); what is left is a prefix of
    the sequence found; the session id and the sessions list are not
    touched, the loading flag is cleared, no request is issued. In
    particular, when [clearChat] ran while the request was in flight, the
    sequence stays empty. *)
Theorem rollback_removes_at_most_one (error : Error) (s : State) :
  let r := sendMessage_resume (Err error) s in
  messages (store r) `prefix_of` messages s
  /\ length (messages (store r)) = Nat.pred (length (messages s))
  /\ store r = set_isLoading false (set_messages (messages (store r)) s)
  /\ requests r = []
  /\ outcome r = Rejected error
  /\ (forall message documentIds,
        let cleared := clearChat (store (sendMessage_call message documentIds s)) in
        messages (store (sendMessage_resume (Err error) cleared)) = []).
Proof.
  cbn. split_and!; try done.
  - apply slice_0_m1_prefix.
  - apply slice_0_m1_length.
Qed.

Lemma filter_filter_same {A} (P : A -> Prop) `{forall x, Decision (P x)}
    (l : list A) :
  filter P (filter P l) = filter P l.
Proof.
  induction l as [|x l IH]; [done|].
  rewrite filter_cons. destruct (decide (P x)) as [Hx | Hx]; [|done].
  rewrite filter_cons, decide_True by done. by rewrite IH.
Qed.

Lemma filter_all {A} (P : A -> Prop) `{forall x, Decision (P x)} (l : list A) :
  Forall P l -> filter P l = l.
Proof.
  induction 1 as [|x l Hx Hl IH]; [done|].
  by rewrite filter_cons, decide_True, IH.
Qed.

(** A successful [deleteSession] never adds to or reorders the cached
    sessions: what it leaves is a sublist of what it found, no longer than
    it. Deleting the same id again changes nothing more. Deleting an id that
    is neither cached nor active changes nothing at all. *)
Theorem deleteSession_again (sessionId' : jsstring) (s : State) :
  let once := store (run_deleteSession sessionId' (Ok ()) s) in
  sessions once `sublist_of` sessions s
  /\ length (sessions once) <= length (sessions s)
  /\ store (run_deleteSession sessionId' (Ok ()) once) = once
  /\ ((sessionId' ∉ (session_id <$> sessions s)) ->
      sessionId s <> Some sessionId' ->
      once = s).
Proof.
  cbn.
  set (keep := filter (fun x => session_id x <> sessionId') (sessions s)).
  assert (Hsub : keep `sublist_of` sessions s) by apply sublist_filter.
  assert (Hlen : length keep <= length (sessions s)) by by apply sublist_length.
  assert (Hkeep : filter (fun x => session_id x <> sessionId') keep = keep).
  { unfold keep. by rewrite filter_filter_same. }
  destruct (decide (sessionId s = Some sessionId')) as [Hact | Hact]; cbn.
  - split_and!; try done.
    rewrite decide_False by done. cbn. by rewrite Hkeep.
  - split_and!; try done.
    + rewrite decide_False by done. cbn. by rewrite Hkeep.
    + intros Hout _. unfold set_sessions.
      assert (Hk : keep = sessions s).
      { apply filter_all. apply Forall_forall. intros x Hx Heq.
        apply Hout. apply list_elem_of_fmap. by exists x. }
      rewrite Hk. by destruct s.
Qed.

Lemma deleteSession_again_witness :
  (lit "zz" ∉ (session_id <$> sessions chatting))
  /\ sessionId chatting <> Some (lit "zz")
  /\ store (run_deleteSession (lit "zz") (Ok ()) chatting) = chatting.
Proof.
  assert (H1 : lit "zz" ∉ (session_id <$> sessions chatting)).
  { intros H. cbn in H. repeat (apply elem_of_cons in H as [H | H];
      [discriminate H|]). by apply elem_of_nil in H. }
  assert (H2 : sessionId chatting <> Some (lit "zz")).
  { intros H; discriminate H. }
  split; [exact H1|]. split; [exact H2|].
  by apply (deleteSession_again (lit "zz") chatting).
Defined.

(** Of two [fetchSessions] replies, the later one decides the cached list
    when it succeeds, and the earlier one's result stays when the later one
    fails; [sessionsLoading] is already clear after the first reply, though
    the second request is still in flight; the conversation ([sessionId],
    [messages], [isLoading]) is the same after as before. *)
Theorem fetchSessions_last_reply_wins (s : State)
    (first : Result (list SessionSummary)) :
  let s0 := store (fetchSessions_call (store (fetchSessions_call s))) in
  let s1 := store (fetchSessions_resume first s0) in
  sessionsLoading s0 = true
  /\ sessionsLoading s1 = false
  /\ (forall later,
        sessions (store (fetchSessions_resume (Ok later) s1)) = later)
  /\ (forall error,
        sessions (store (fetchSessions_resume (Err error) s1)) = sessions s1)
  /\ (forall second,
        let s2 := store (fetchSessions_resume second s1) in
        sessionId s2 = sessionId s /\ messages s2 = messages s
        /\ isLoading s2 = isLoading s /\ sessionsLoading s2 = false).
Proof.
  destruct first as [l | e]; cbn; split_and!; try done.
  all: by intros [l' | e'].
Qed.

(** A successful [switchSession] shows the fetched history message for
    message: as many messages, in the same order, each with the role and
    the content the backend gave; a message whose sources are missing or
    null has no sources, any other keeps its list. The session id and the
    sequence are written in the same step, before the sessions refresh is
    started. *)
Theorem switchSession_shows_history (sessionId' : jsstring)
    (history : SessionHistory) (s : State) :
  let r := run_switchSession sessionId' (Ok history) s in
  length (messages (store r)) = length (history_messages history)
  /\ (forall i msg,
        history_messages history !! i = Some msg ->
        messages (store r) !! i
        = Some {| role := msg_role msg; content := msg_content msg;
                  sources := msg_sources msg |})
  /\ sessionId (store r) = Some sessionId'
  /\ isLoading (store r) = false
  /\ sessions (store r) = sessions s
  /\ requests r = [getSessionHistory sessionId'; getAllSessions]
  /\ outcome r = Resolved.
Proof.
  cbn. split_and!; try done.
  - by rewrite length_fmap.
  - intros i msg Hi. rewrite list_lookup_fmap, Hi. cbn. unfold convert.
    by destruct (msg_sources msg).
Qed.

Lemma switchSession_shows_history_witness :
  history_messages history_a !! 1
  = Some {| msg_role := assistant; msg_content := lit "answered in a";
            msg_sources := Some [lit "doc1:p2"] |}
  /\ messages (store (run_switchSession (lit "a") (Ok history_a) initial)) !! 1
     = Some {| role := assistant; content := lit "answered in a";
               sources := Some [lit "doc1:p2"] |}.
Proof.
  split; [reflexivity|].
  destruct (switchSession_shows_history (lit "a") history_a initial)
    as (_ & H & _).
  apply (H 1 {| msg_role := assistant; msg_content := lit "answered in a";
                msg_sources := Some [lit "doc1:p2"] |}).
  reflexivity.
Defined.

(** [ChatInterface] shows the empty state exactly when there is no message
    and nothing is loading: never between the call of a [sendMessage] and
    its reply, never after a successful [sendMessage], and again after a
    failed [sendMessage] exactly when the sequence was empty before. *)
Theorem showEmptyState_around_send (message : jsstring)
    (documentIds : list jsstring) (s : State) :
  Handlers.showEmptyState (store (sendMessage_call message documentIds s))
  = false
  /\ (forall response,
        Handlers.showEmptyState
          (store (run_sendMessage message documentIds (Ok response) s))
        = false)
  /\ (forall error,
        Handlers.showEmptyState
          (store (run_sendMessage message documentIds (Err error) s))
        = bool_decide (messages s = [])).
Proof.
  unfold Handlers.showEmptyState. cbn. split_and!.
  - by rewrite andb_false_r.
  - intros response. rewrite !length_app. cbn.
    rewrite bool_decide_eq_false_2; [done | lia].
  - intros error. rewrite slice_0_m1_snoc, andb_true_r.
    by destruct (messages s).
Qed.

End ChatStoreFacts.

(** ** More on the file store *)

Module FileStoreFacts.
Import FileStore.

Lemma filter_ne_snoc (fileId : jsstring) (l : list jsstring) :
  fileId ∉ l -> filter (fun id => id <> fileId) (l ++ [fileId]) = l.
Proof.
  intros Hout. rewrite filter_app, filter_cons, decide_False by (by intros ?).
  rewrite filter_nil, app_nil_r.
  induction l as [|x l IH]; [done|].
  apply not_elem_of_cons in Hout as [Hne Hout].
  rewrite filter_cons, decide_True by done. by rewrite IH.
Qed.

Lemma length_filter_ne (fileId : jsstring) (l : list jsstring) :
  NoDup l -> fileId ∈ l ->
  S (length (filter (fun id => id <> fileId) l)) = length l.
Proof.
  induction 1 as [|x l Hx Hl IH]; intros Hin; [by apply elem_of_nil in Hin|].
  rewrite filter_cons. destruct (decide (x <> fileId)) as [Hne | Heq].
  - apply elem_of_cons in Hin as [-> | Hin]; [done|].
    cbn. by rewrite IH.
  - assert (x = fileId) as -> by (by destruct (decide (x = fileId))).
    cbn. f_equal.
    clear IH Hin Hl Heq. induction l as [|y l IH]; [done|].
    apply not_elem_of_cons in Hx as [Hne Hx].
    rewrite filter_cons, decide_True by done. cbn. by rewrite IH.
Qed.

Lemma toggle_keeps_NoDup (fileId : jsstring) (s : State) :
  NoDup (selectedFiles s) -> NoDup (selectedFiles (toggleFileSelection fileId s)).
Proof.
  intros Hnd. unfold toggleFileSelection. cbn.
  destruct (bool_decide_reflect (fileId ∈ selectedFiles s)) as [Hin | Hout].
  - by apply NoDup_filter.
  - apply NoDup_app. split_and!; [done | | apply NoDup_singleton].
    intros x Hx ->%list_elem_of_singleton. by apply Hout.
Qed.

(** The selection as a list. Toggles never create a duplicate: from the
    initial store, after any sequence of toggles, no id is listed twice.
    When no id is listed twice, a toggle of a selected id shortens the list
    by one and leaves the id unselected, a toggle of an unselected id
    appends it; and toggling an unselected id twice gives back the very
    same list. Only [selectedFiles] is written. *)
Theorem toggle_list_invariant (fileIds : list jsstring) (fileId : jsstring)
    (s : State) :
  NoDup (selectedFiles (toggle_all fileIds initial))
  /\ (NoDup (selectedFiles s) ->
      NoDup (selectedFiles (toggle_all fileIds s))
      /\ (fileId ∈ selectedFiles s ->
          S (length (selectedFiles (toggleFileSelection fileId s)))
          = length (selectedFiles s)
          /\ (fileId ∉ selectedFiles (toggleFileSelection fileId s)))
      /\ ((fileId ∉ selectedFiles s) ->
          selectedFiles (toggleFileSelection fileId s)
          = selectedFiles s ++ [fileId]
          /\ selectedFiles (toggleFileSelection fileId
                              (toggleFileSelection fileId s))
             = selectedFiles s))
  /\ files (toggle_all fileIds s) = files s
  /\ isLoading (toggle_all fileIds s) = isLoading s
  /\ isUploading (toggle_all fileIds s) = isUploading s.
Proof.
  assert (Hall : forall s', NoDup (selectedFiles s') ->
                            NoDup (selectedFiles (toggle_all fileIds s'))).
  { induction fileIds as [|x fileIds IH]; intros s' Hs'; [done|].
    cbn. apply IH. by apply toggle_keeps_NoDup. }
  assert (Hframe : forall s', files (toggle_all fileIds s') = files s'
                              /\ isLoading (toggle_all fileIds s') = isLoading s'
                              /\ isUploading (toggle_all fileIds s')
                                 = isUploading s').
  { clear Hall. induction fileIds as [|x fileIds IH]; intros s'; [done|].
    destruct (IH (toggleFileSelection x s')) as (H1 & H2 & H3).
    split_and!; [exact H1 | exact H2 | exact H3]. }
  destruct (Hframe s) as (Hf & Hl & Hu).
  split_and!; try done.
  - apply Hall. apply NoDup_nil_2.
  - intros Hnd. split_and!.
    + by apply Hall.
    + intros Hin. unfold toggleFileSelection. cbn.
      rewrite bool_decide_eq_true_2 by done. split.
      * by apply length_filter_ne.
      * intros [Hne _]%list_elem_of_filter. by apply Hne.
    + intros Hout. unfold toggleFileSelection. cbn.
      rewrite (bool_decide_eq_false_2 (fileId ∈ selectedFiles s)) by done.
      split; [done|]. cbn.
      rewrite bool_decide_eq_true_2
        by (apply elem_of_app; right; by apply list_elem_of_singleton).
      by apply filter_ne_snoc.
Qed.

Lemma toggle_list_invariant_witness :
  let s := set_selectedFiles [lit "doc1"; lit "doc2"] initial in
  NoDup (selectedFiles s)
  /\ NoDup (selectedFiles (toggle_all [lit "doc2"; lit "doc3"] s)).
Proof.
  assert (H : NoDup [lit "doc1"; lit "doc2"]).
  { apply NoDup_cons. split.
    - intros Hin. apply list_elem_of_singleton in Hin. discriminate Hin.
    - apply NoDup_singleton. }
  split; [exact H|].
  by apply (toggle_list_invariant [lit "doc2"; lit "doc3"] (lit "doc1")
              (set_selectedFiles [lit "doc1"; lit "doc2"] initial)).
Defined.

(** [selectAllFiles] selects the ids of the cached files, one entry per
    file and in their order, so every cached file is selected; doing it
    again changes nothing; a toggle of a cached file's id then deselects
    it. [clearSelection] leaves nothing selected. Neither touches the cached
    files or the flags. *)
Theorem selectAll_and_clear (s : State) :
  selectedFiles (selectAllFiles s) = id <$> files s
  /\ length (selectedFiles (selectAllFiles s)) = length (files s)
  /\ (forall file, file ∈ files s -> id file ∈ selection (selectAllFiles s))
  /\ selectAllFiles (selectAllFiles s) = selectAllFiles s
  /\ (forall file, file ∈ files s ->
        id file ∉ selection (toggleFileSelection (id file) (selectAllFiles s)))
  /\ selection (clearSelection s) = ∅
  /\ selection (clearSelection (selectAllFiles s)) = ∅
  /\ files (selectAllFiles s) = files s
  /\ files (clearSelection s) = files s.
Proof.
  split_and!; try done.
  - cbn. by rewrite length_fmap.
  - intros file Hin. unfold selection. apply elem_of_list_to_set.
    cbn. apply list_elem_of_fmap. by exists file.
  - intros file Hin. unfold selection, toggleFileSelection.
    rewrite elem_of_list_to_set. cbn.
    rewrite bool_decide_eq_true_2
      by (apply list_elem_of_fmap; by exists file).
    intros [Hne _]%list_elem_of_filter. by apply Hne.
Qed.

Lemma selectAll_and_clear_witness :
  let file := {| id := lit "doc1"; filename := lit "a.pdf";
                 upload_date := lit "2024-01-01"; file_size := 10;
                 chunk_count := 3 |} in
  let s := set_files [file] initial in
  file ∈ files s /\ id file ∈ selection (selectAllFiles s).
Proof.
  split; [apply list_elem_of_singleton; reflexivity|].
  destruct (selectAll_and_clear
              (set_files [ {| id := lit "doc1"; filename := lit "a.pdf";
                              upload_date := lit "2024-01-01"; file_size := 10;
                              chunk_count := 3 |} ] initial))
    as (_ & _ & H & _).
  apply H. apply list_elem_of_singleton; reflexivity.
Defined.

(** [FileList.handleFileToggle] always leaves the conversation empty,
    whatever the id and whether the toggle selected or deselected it, and
    keeps the session id, the sessions list and the flags of the chat store;
    the selection, as a set, has the id's membership flipped. *)
Theorem handleFileToggle_clears_chat (fileId : jsstring) (fs : State)
    (cs : ChatStore.State) :
  let after := FileList.handleFileToggle fileId (fs, cs) in
  ChatStore.messages (snd after) = []
  /\ snd after = ChatStore.set_messages [] cs
  /\ selection (fst after) = flip fileId (selection fs)
  /\ (fileId ∈ selection (fst after) <-> fileId ∉ selection fs).
Proof.
  unfold FileList.handleFileToggle. cbn [fst snd]. split_and!; try done.
  - apply SelectionFacts.selection_toggle.
  - rewrite SelectionFacts.selection_toggle, SelectionFacts.flip_spec.
    split; [by intros [[? ?] | [? _]] | intros H; by right].
Qed.

End FileStoreFacts.

(** ** Uploads *)

Module UploadFacts.
Import FileStore Upload.

(** [uploadFile] leaves [isUploading] set while it runs and clear when it
    ends, however it ends. It rejects exactly when the upload itself fails,
    and then it has not asked for the files list and the store is otherwise
    as it was. After a successful upload it resolves whether or not the
    reload succeeds: the cached list is the reloaded one, or the old one
    with the failure logged. The selection is never touched. *)
Theorem uploadFile_outcomes (file : File) (s : State) :
  (let u := uploadFile_call file s in
   posted u = [file]
   /\ store (then_ u) = set_isUploading true s
   /\ outcome (then_ u) = Suspended)
  /\ (forall error reload,
        let r := run_uploadFile file (Err error) reload s in
        store r = set_isUploading false s
        /\ requests r = []
        /\ outcome r = Rejected error)
  /\ (forall files',
        let r := run_uploadFile file (Ok ()) (Ok files') s in
        store r = set_isUploading false (set_isLoading false (set_files files' s))
        /\ requests r = [getFiles]
        /\ outcome r = Resolved)
  /\ (forall error,
        let r := run_uploadFile file (Ok ()) (Err error) s in
        store r = set_isUploading false (set_isLoading false s)
        /\ requests r = [getFiles]
        /\ console r = [("Failed to load files:"%string, error)]
        /\ outcome r = Resolved)
  /\ (forall reply reload,
        let r := run_uploadFile file reply reload s in
        isUploading (store r) = false
        /\ selectedFiles (store r) = selectedFiles s
        /\ (outcome r = Resolved \/ exists error, outcome r = Rejected error)).
Proof.
  split_and!; try done.
  intros [[] | error] [files' | error']; cbn; split_and!; try done;
    try (by left); by right; eexists.
Qed.

(** [FileUpload.onDrop] posts a file only if it is the first of the dropped
    files, its type is [application/pdf] and its size is at most
    [50 * 1024 * 1024] bytes; it then posts that file alone, raises no
    toast and sets [isUploading]. A first file that meets the three
    conditions is posted, so a file of exactly that size is accepted. When
    nothing is posted the store is as it was. *)
Theorem onDrop_posts_small_pdf_only (acceptedFiles : list File) (s : State) :
  (forall file,
     file ∈ FileUpload.posted (FileUpload.onDrop acceptedFiles s) ->
     head acceptedFiles = Some file
     /\ type file = lit "application/pdf"
     /\ (size file <= 52428800)%N
     /\ FileUpload.posted (FileUpload.onDrop acceptedFiles s) = [file]
     /\ FileUpload.toasts (FileUpload.onDrop acceptedFiles s) = []
     /\ store (FileUpload.step (FileUpload.onDrop acceptedFiles s))
        = set_isUploading true s)
  /\ (forall file,
        head acceptedFiles = Some file ->
        type file = lit "application/pdf" ->
        (size file <= 52428800)%N ->
        FileUpload.posted (FileUpload.onDrop acceptedFiles s) = [file])
  /\ (FileUpload.posted (FileUpload.onDrop acceptedFiles s) = [] ->
      FileUpload.onDrop acceptedFiles s
      = {| FileUpload.toasts :=
             FileUpload.toasts (FileUpload.onDrop acceptedFiles s);
           FileUpload.posted := [];
           FileUpload.step := nothing s |}).
Proof.
  unfold FileUpload.onDrop.
  set (pdf := lit "application/pdf").
  destruct acceptedFiles as [|first rest].
  { split_and!; try done. by intros file ?%elem_of_nil. }
  destruct (bool_decide_reflect (type first = pdf)) as [Hpdf | Hpdf];
    cbn [negb].
  - destruct (N.ltb_spec FileUpload.limit (size first)) as [Hbig | Hsmall];
      unfold FileUpload.limit in *;
      cbn [FileUpload.posted FileUpload.toasts FileUpload.step head
           uploadFile_call posted then_ store].
    + split_and!; try done.
      * by intros file ?%elem_of_nil.
      * intros file [= <-] _ Hle. lia.
    + split_and!; try done.
      * intros file ->%list_elem_of_singleton. by split_and!.
      * by intros file [= <-] _ _.
  - cbn [FileUpload.posted FileUpload.toasts FileUpload.step head].
    split_and!; try done.
    + by intros file ?%elem_of_nil.
    + by intros file [= <-] Ht _.
Qed.

Lemma onDrop_posts_small_pdf_only_witness :
  let file := {| name := lit "big.pdf"; type := lit "application/pdf";
                 size := 52428800 |} in
  head [file] = Some file
  /\ type file = lit "application/pdf"
  /\ (size file <= 52428800)%N
  /\ FileUpload.posted (FileUpload.onDrop [file] initial) = [file].
Proof.
  split; [reflexivity|]. split; [reflexivity|].
  split; [cbn; apply N.le_refl|].
  destruct (onDrop_posts_small_pdf_only
              [ {| name := lit "big.pdf"; type := lit "application/pdf";
                   size := 52428800 |} ] initial) as (_ & H & _).
  apply H; [reflexivity | reflexivity | cbn; apply N.le_refl].
Defined.

(** The toast of [FileUpload.onDrop] follows the outcome of [uploadFile]:
    the failure toast when the upload fails, the success toast when the
    upload succeeds, also when the reload that follows fails and the list
    shown is the old one. [onDrop] itself returns normally in every case. *)
Theorem onDrop_toasts (s : State) :
  (forall error,
     let d := FileUpload.onDrop_after (uploadFile_uploaded (Err error) s) in
     FileUpload.toasts d = [toast_error "Failed to upload file"]
     /\ outcome (FileUpload.step d) = Resolved
     /\ isUploading (store (FileUpload.step d)) = false)
  /\ (let d := FileUpload.onDrop_after (uploadFile_uploaded (Ok ()) s) in
      FileUpload.toasts d = []
      /\ outcome (FileUpload.step d) = Suspended)
  /\ (forall reload,
        let d := FileUpload.onDrop_after (uploadFile_loaded reload s) in
        FileUpload.toasts d = [toast_success "File uploaded successfully!"]
        /\ outcome (FileUpload.step d) = Resolved
        /\ isUploading (store (FileUpload.step d)) = false)
  /\ (forall error,
        files (store (FileUpload.step
                        (FileUpload.onDrop_after
                           (uploadFile_loaded (Err error) s))))
        = files s).
Proof.
  split_and!; try done; by intros [files' | error].
Qed.

End UploadFacts.

(** ** The response interceptor *)

Module ApiFacts.
Import Api.

(** The error the response interceptor rejects with takes its message from
    the backend's [detail] when that is truthy (a non-empty string as it
    is, any other truthy value converted to a string), else from the
    error's own message when that is truthy, else it is
    ["An error occurred"]. The message is empty exactly when the value taken
    is not a string and converts to the empty string, as an empty array
    does; so when [detail] and the error's message are each a string or
    falsy, the message is never empty. *)
Theorem rejection_message (error : AxiosError) :
  (rejection error = []
   <-> detail error = js_other []
       \/ (truthy (detail error) = false /\ message error = js_other []))
  /\ (forall text, detail error = js_string text -> text <> [] ->
        rejection error = text)
  /\ (forall shown, detail error = js_other shown -> rejection error = shown)
  /\ (forall text,
        truthy (detail error) = false ->
        message error = js_string text -> text <> [] ->
        rejection error = text)
  /\ (forall shown,
        truthy (detail error) = false ->
        message error = js_other shown ->
        rejection error = shown)
  /\ (truthy (detail error) = false -> truthy (message error) = false ->
      rejection error = lit "An error occurred")
  /\ ((forall shown, detail error <> js_other shown) ->
      (forall shown, message error <> js_other shown) ->
      rejection error <> []).
Proof.
  assert (Hempty :
    rejection error = []
    <-> detail error = js_other []
        \/ (truthy (detail error) = false /\ message error = js_other [])).
  { unfold rejection, or_else.
    destruct error as [[[|c d]| |d] [[|c' m]| |m]]; cbn; split;
      try (intros H; discriminate H);
      try (intros [H | [H1 H2]]; discriminate);
      try (intros ->; by left);
      try (intros ->; right; by split);
      try (intros [[= ->] | [_ [= ->]]]; done);
      try (intros [[= ->] | [H _]]; done). }
  split_and!; try exact Hempty.
  - intros text Hd Hne. unfold rejection, or_else. rewrite Hd.
    by destruct text.
  - intros shown Hd. unfold rejection, or_else. by rewrite Hd.
  - intros text Hd Hm Hne. unfold rejection, or_else. rewrite Hd, Hm.
    by destruct text.
  - intros shown Hd Hm. unfold rejection, or_else. by rewrite Hd, Hm.
  - intros Hd Hm. unfold rejection, or_else. by rewrite Hd, Hm.
  - intros Hd Hm Hr. apply Hempty in Hr as [Hr | [_ Hr]].
    + by apply (Hd []).
    + by apply (Hm []).
Qed.

Lemma rejection_message_witness :
  let error :=
    {| detail := js_string (lit "Session not found");
       message := js_string (lit "Request failed with status code 404") |} in
  detail error = js_string (lit "Session not found")
  /\ lit "Session not found" <> []
  /\ rejection error = lit "Session not found".
Proof.
  split; [reflexivity|]. split; [intros H; discriminate H|].
  destruct (rejection_message
              {| detail := js_string (lit "Session not found");
                 message := js_string
                              (lit "Request failed with status code 404") |})
    as (_ & H & _).
  apply H; [reflexivity | intros H'; discriminate H'].
Defined.

(** An empty array as [detail] gives an error with an empty message. *)
Example rejection_empty_array :
  rejection {| detail := js_other [];
               message := js_string (lit "Request failed with status code 422") |}
  = [].
Proof. reflexivity. Qed.

End ApiFacts.
